(** * Enclave Bridge: the icon-set generator [scripts/generate_icon.py]

    A shallow embedding of the script and the properties of the asset
    catalogue manifest ([Contents.json]) it writes.

    The script is a straight-line pipeline: it saves a fixed SVG document,
    asks the external tool [rsvg-convert] for one PNG per entry of [SIZES],
    and serialises a manifest that lists the renditions.  Everything the
    script does to the outside world (console, filesystem, subprocesses) is
    recorded as an event of a trace; the external converter is the only
    source of variation and is a parameter of the development. *)

From Stdlib Require Import ZArith Ascii String DecimalString Lia.
From stdpp Require Import base list strings gmap sets.

Local Open Scope string_scope.
Local Open Scope Z_scope.
Local Open Scope list_scope.

(** ** Python values *)

(** [str(n)] for a Python [int]. *)
Definition str (n : Z) : string := NilZero.string_of_int (Z.to_int n).

(** The double-quote character, code point 34. *)
Definition dquote : ascii := ascii_of_nat 34.

(** The SVG literal of the source is written here with apostrophes where the
    source has double quotes (the source text contains no apostrophe);
    [requote] puts the double quotes back. *)
Fixpoint requote (s : string) : string :=
  match s with
  | EmptyString => EmptyString
  | String c s' =>
      String (if Ascii.eqb c "'"%char then dquote else c) (requote s')
  end.

(** [os.path.join(a, b)] of [posixpath], for two components. *)
Definition os_path_join (a b : string) : string :=
  match b with
  | String "/"%char _ => b
  | _ =>
      if decide (a = "") then b
      else if String.eqb (substring (String.length a - 1) 1 a) "/" then a +:+ b
      else a +:+ "/" +:+ b
  end.

(** ** Constants of the script *)

Definition ICON_DIR : string :=
  "/Volumes/Code/source/repos/enclave/Enclave/Assets.xcassets/AppIcon.appiconset".

Abbreviation SizeSpec := (Z * Z)%type.

Definition SIZES : list SizeSpec :=
  [ (16, 1); (16, 2);
    (32, 1); (32, 2);
    (128, 1); (128, 2);
    (256, 1); (256, 2);
    (512, 1); (512, 2) ].

Definition SVG_CONTENT : string := requote
"<svg xmlns='http://www.w3.org/2000/svg' viewBox='0 0 512 512'>
  <defs>
    <linearGradient id='bg' x1='0%' y1='0%' x2='100%' y2='100%'>
      <stop offset='0%' stop-color='#1a1a2e'/>
      <stop offset='100%' stop-color='#16213e'/>
    </linearGradient>
    <linearGradient id='shield' x1='0%' y1='0%' x2='100%' y2='100%'>
      <stop offset='0%' stop-color='#00d4ff'/>
      <stop offset='100%' stop-color='#0099cc'/>
    </linearGradient>
    <linearGradient id='key' x1='0%' y1='0%' x2='100%' y2='100%'>
      <stop offset='0%' stop-color='#ffd700'/>
      <stop offset='100%' stop-color='#ffaa00'/>
    </linearGradient>
  </defs>
  <rect x='20' y='20' width='472' height='472' rx='90' fill='url(#bg)'/>
  <path d='M256 80 L400 130 L400 280 C400 380 256 440 256 440 C256 440 112 380 112 280 L112 130 Z' 
        fill='none' stroke='url(#shield)' stroke-width='20' stroke-linejoin='round'/>
  <g transform='translate(256, 260) rotate(-45)'>
    <circle cx='-60' cy='0' r='50' fill='url(#key)'/>
    <circle cx='-60' cy='0' r='20' fill='url(#bg)'/>
    <rect x='-20' y='-12' width='120' height='24' rx='8' fill='url(#key)'/>
    <rect x='70' y='-12' width='12' height='35' rx='3' fill='url(#key)'/>
    <rect x='90' y='-12' width='12' height='25' rx='3' fill='url(#key)'/>
  </g>
  <circle cx='256' cy='160' r='25' fill='url(#shield)'/>
  <rect x='244' y='155' width='24' height='20' rx='3' fill='url(#bg)'/>
  <path d='M250 155 L250 145 A12 12 0 0 1 262 145 L262 155' fill='none' stroke='url(#bg)' stroke-width='4'/>
</svg>".

(** ** JSON documents and [json.dump]

    A Python [dict] keeps its keys in insertion order, and the serialiser
    walks them in that order, so an object is an association list. *)

#[local] Set Warnings "-register-all".

Inductive json : Type :=
  | JString (s : string)
  | JInt (n : Z)
  | JList (items : list json)
  | JDict (items : list (string * json)).

Definition hex_digit (n : nat) : ascii :=
  nth n (list_ascii_of_string "0123456789abcdef") "0"%char.

(** One character under [ESCAPE_ASCII] / [ESCAPE_DCT] of [json.encoder]:
    everything outside [' '..'~'], the backslash and the double quote are
    escaped. *)
Definition escape_char (c : ascii) : string :=
  let n := nat_of_ascii c in
  if Ascii.eqb c "\"%char then "\\"
  else if Ascii.eqb c dquote then String "\"%char (String dquote "")
  else if (n =? 8)%nat then "\b"
  else if (n =? 12)%nat then "\f"
  else if (n =? 10)%nat then "\n"
  else if (n =? 13)%nat then "\r"
  else if (n =? 9)%nat then "\t"
  else if ((32 <=? n) && (n <=? 126))%nat then String c ""
  else "\u00" +:+ String (hex_digit (n / 16)) (String (hex_digit (n mod 16)) "").

Fixpoint escape_chars (s : string) : string :=
  match s with
  | EmptyString => EmptyString
  | String c s' => escape_char c +:+ escape_chars s'
  end.

Definition encode_basestring_ascii (s : string) : string :=
  String dquote (escape_chars s +:+ String dquote "").

Fixpoint spaces (n : nat) : string :=
  match n with
  | O => ""
  | S n' => " " +:+ spaces n'
  end.

(** ['\n' + _indent * _current_indent_level] with [indent=2]. *)
Definition newline_indent (level : nat) : string :=
  String (ascii_of_nat 10) (spaces (2 * level)).

(** [_iterencode] of [json.encoder] with [indent=2], hence item separator
    [","] and key separator [": "]; the chunks are concatenated. *)
Fixpoint iterencode (level : nat) (o : json) : string :=
  match o with
  | JString s => encode_basestring_ascii s
  | JInt n => str n
  | JList [] => "[]"
  | JList (v :: vs) =>
      "[" +:+ newline_indent (S level) +:+ iterencode (S level) v +:+
      (fix rest (vs : list json) : string :=
         match vs with
         | [] => ""
         | v' :: vs' =>
             "," +:+ newline_indent (S level) +:+ iterencode (S level) v'
                 +:+ rest vs'
         end) vs +:+
      newline_indent level +:+ "]"
  | JDict [] => "{}"
  | JDict ((k, v) :: kvs) =>
      "{" +:+ newline_indent (S level) +:+
      encode_basestring_ascii k +:+ ": " +:+ iterencode (S level) v +:+
      (fix rest (kvs : list (string * json)) : string :=
         match kvs with
         | [] => ""
         | (k', v') :: kvs' =>
             "," +:+ newline_indent (S level) +:+
             encode_basestring_ascii k' +:+ ": " +:+ iterencode (S level) v'
                 +:+ rest kvs'
         end) kvs +:+
      newline_indent level +:+ "}"
  end.

Definition json_dumps (o : json) : string := iterencode 0 o.

(** [d.get(key)] on a JSON object. *)
Definition dict_get (key : string) (o : json) : option json :=
  match o with
  | JDict kvs => snd <$> find (fun kv => String.eqb (fst kv) key) kvs
  | _ => None
  end.

Definition has_key (key : string) (o : json) : bool :=
  bool_decide (is_Some (dict_get key o)).

(** ** The outside world

    What [subprocess.run] hands back to the script: a completed process with
    its return code, or the [FileNotFoundError] raised when the executable is
    not on the search path.  Any other exception would leave [main]
    altogether and is outside this model, as are failures of the filesystem
    writes. *)
Inductive Completed : Type :=
  | CompletedProcess (returncode : Z)
  | FileNotFoundError.

Inductive Event : Type :=
  | Print (line : string)
  | WriteFile (path content : string)
  | MakeDirs (path : string) (exist_ok : bool)
  | Run (argv : list string).

(** The events so far, oldest first, and the number of processes spawned. *)
Record World : Type := mkWorld { trace : list Event; spawned : nat }.

Definition boot : World := mkWorld [] 0.

Definition emit (e : Event) (w : World) : World :=
  mkWorld (trace w ++ [e]) (spawned w).

(** A state monad over [World]. *)
Definition M (A : Type) : Type := World -> A * World.

#[local] Instance M_ret : MRet M := fun A (a : A) w => (a, w).

#[local] Instance M_bind : MBind M :=
  fun A B (k : A -> M B) (m : M A) w => let (a, w') := m w in k a w'.

Definition print (line : string) : M unit :=
  fun w => (tt, emit (Print line) w).

Definition write_file (path content : string) : M unit :=
  fun w => (tt, emit (WriteFile path content) w).

Definition makedirs (path : string) (exist_ok : bool) : M unit :=
  fun w => (tt, emit (MakeDirs path exist_ok) w).

(** A [for] loop whose body updates the local variables [s]. *)
Fixpoint for_each {A S : Type} (l : list A) (body : S -> A -> M S) (s : S)
  : M S :=
  match l with
  | [] => mret s
  | x :: l' => s' ← body s x; for_each l' body s'
  end.

(** ** The script *)

Definition svg_path : string := "/tmp/enclave_icon.svg".

Definition filename_of (size scale : Z) : string :=
  "icon_" +:+ str size +:+ "x" +:+ str size +:+ "@" +:+ str scale +:+ "x.png".

Definition filepath_of (size scale : Z) : string :=
  os_path_join ICON_DIR (filename_of size scale).

Definition rsvg_argv (size scale : Z) : list string :=
  let actual_size := size * scale in
  [ "rsvg-convert"; "-w"; str actual_size; "-h"; str actual_size;
    "-o"; filepath_of size scale; svg_path ].

Definition skipped_message (filename : string) : string :=
  "Skipped " +:+ filename +:+ " - install librsvg: brew install librsvg".

(** The dictionary appended for a generated image (lines 83-88). *)
Definition produced_entry (filename : string) (size scale : Z) : json :=
  JDict [ ("filename", JString filename);
          ("idiom", JString "mac");
          ("scale", JString (str scale +:+ "x"));
          ("size", JString (str size +:+ "x" +:+ str size)) ].

(** The dictionary appended for a missing size (lines 94-98). *)
Definition missing_entry (size scale : Z) : json :=
  JDict [ ("idiom", JString "mac");
          ("scale", JString (str scale +:+ "x"));
          ("size", JString (str size +:+ "x" +:+ str size)) ].

Definition contents_path : string := os_path_join ICON_DIR "Contents.json".

Section Generator.

(** [spawn k argv] is what the [k]-th call of [subprocess.run] (counting
    from 0) returns or raises when given the command line [argv]. *)
Variable spawn : nat -> list string -> Completed.

Definition subprocess_run (argv : list string) : M Completed :=
  fun w => (spawn (spawned w) argv,
            mkWorld (trace w ++ [Run argv]) (S (spawned w))).

(** Body of the loop of lines 60-78; [images] is the local list. *)
Definition rasterize_one (images : list (string * Z * Z)) (spec : SizeSpec)
  : M (list (string * Z * Z)) :=
  let '(size, scale) := spec in
  let filename := filename_of size scale in
  result ← subprocess_run (rsvg_argv size scale);
  match result with
  | CompletedProcess returncode =>
      if (returncode =? 0)%Z then
        print ("Generated " +:+ filename) ;;
        mret (images ++ [(filename, size, scale)])
      else
        print (skipped_message filename) ;; mret images
  | FileNotFoundError =>
      print (skipped_message filename) ;; mret images
  end.

(** Lines 82-88: one dictionary per generated image. *)
Definition append_produced (entries : list json)
    (images : list (string * Z * Z)) : list json :=
  fold_left (fun acc '(filename, size, scale) =>
               acc ++ [produced_entry filename size scale]) images entries.

(** Line 91: the set comprehension. *)
Definition existing_of (images : list (string * Z * Z)) : gset (Z * Z) :=
  list_to_set (map (fun '(_, s, sc) => (s, sc)) images).

(** Lines 92-98: a bare dictionary for every size not in [existing]. *)
Definition append_missing (entries : list json) (existing : gset (Z * Z))
  : list json :=
  fold_left (fun acc '(size, scale) =>
               if decide ((size, scale) ∉ existing)
               then acc ++ [missing_entry size scale]
               else acc) SIZES entries.

(** Lines 81-98: the manifest as a function of the generated images. *)
Definition build_contents (images : list (string * Z * Z)) : json :=
  let entries := append_produced [] images in
  let existing := existing_of images in
  let entries := append_missing entries existing in
  JDict [ ("images", JList entries);
          ("info", JDict [("author", JString "xcode"); ("version", JInt 1)]) ].

(** Lines 51-98 of [main]: everything up to the manifest value. *)
Definition main_contents : M json :=
  write_file svg_path SVG_CONTENT ;;
  print ("Created SVG at " +:+ svg_path) ;;
  makedirs ICON_DIR true ;;
  images ← for_each SIZES rasterize_one [];
  mret (build_contents images).

(** [main()]. *)
Definition main : M unit :=
  contents ← main_contents;
  write_file contents_path (json_dumps contents) ;;
  print ("Updated " +:+ contents_path).

(** The manifest value and the trace of a run from a fresh world. *)
Definition manifest : json := fst (main_contents boot).

Definition run_trace : list Event := trace (snd (main boot)).

End Generator.

(** ** Observations on a manifest and on a trace *)

(** The list stored under ["images"]. *)
Definition images_of (contents : json) : list json :=
  match dict_get "images" contents with
  | Some (JList entries) => entries
  | _ => []
  end.

(** A string-valued field of an entry. *)
Definition str_field (key : string) (entry : json) : option string :=
  match dict_get key entry with
  | Some (JString s) => Some s
  | _ => None
  end.

(** The entry carries the [size] and [scale] strings of the given spec. *)
Definition describes (spec : SizeSpec) (entry : json) : bool :=
  bool_decide (str_field "size" entry
               = Some (str spec.1 +:+ "x" +:+ str spec.1))
  && bool_decide (str_field "scale" entry = Some (str spec.2 +:+ "x")).

(** The entries of a manifest that describe a given spec. *)
Definition entries_for (spec : SizeSpec) (contents : json) : list json :=
  filter (λ e, describes spec e = true) (images_of contents).

(** The command lines of the processes spawned, in order. *)
Definition runs (tr : list Event) : list (list string) :=
  omap (λ e, match e with Run argv => Some argv | _ => None end) tr.

(** The lines printed, in order. *)
Definition printed (tr : list Event) : list string :=
  omap (λ e, match e with Print line => Some line | _ => None end) tr.

(** What a file holds after the trace: the content of the last write. *)
Definition file_content (path : string) (tr : list Event) : option string :=
  last (omap (λ e, match e with
                   | WriteFile p c => if decide (p = path) then Some c else None
                   | _ => None
                   end) tr).

(** The converter call counts as a success: it returned status zero. *)
Definition succeeded (c : Completed) : bool :=
  match c with
  | CompletedProcess returncode => returncode =? 0
  | FileNotFoundError => false
  end.

Definition image_of (spec : SizeSpec) : string * Z * Z :=
  (filename_of spec.1 spec.2, spec.1, spec.2).

Definition full_entry (spec : SizeSpec) : json :=
  produced_entry (filename_of spec.1 spec.2) spec.1 spec.2.

Definition bare_entry (spec : SizeSpec) : json :=
  missing_entry spec.1 spec.2.

Definition prelude : list Event :=
  [ WriteFile svg_path SVG_CONTENT;
    Print ("Created SVG at " +:+ svg_path);
    MakeDirs ICON_DIR true ].

Section Outcomes.

Variable spawn : nat -> list string -> Completed.

(** The verdict on spec [spec] when it is the subject of call [k]. *)
Definition ok (k : nat) (spec : SizeSpec) : bool :=
  succeeded (spawn k (rsvg_argv spec.1 spec.2)).

(** The verdict on the [i]-th entry of [SIZES], handled by call [i]. *)
Definition converter_ok (i : nat) : bool :=
  match SIZES !! i with
  | Some spec => ok i spec
  | None => false
  end.

(** The specs of [l] with verdict [b], when calls are numbered from [k]. *)
Fixpoint verdict_from (b : bool) (k : nat) (l : list SizeSpec)
  : list SizeSpec :=
  match l with
  | [] => []
  | spec :: l' =>
      if bool_decide (ok k spec = b)
      then spec :: verdict_from b (S k) l'
      else verdict_from b (S k) l'
  end.

Definition produced_specs : list SizeSpec := verdict_from true 0 SIZES.
Definition missing_specs : list SizeSpec := verdict_from false 0 SIZES.

(** The events of the rasterisation loop over [l]. *)
Fixpoint loop_events (k : nat) (l : list SizeSpec) : list Event :=
  match l with
  | [] => []
  | spec :: l' =>
      Run (rsvg_argv spec.1 spec.2)
      :: Print (if ok k spec
                then "Generated " +:+ filename_of spec.1 spec.2
                else skipped_message (filename_of spec.1 spec.2))
      :: loop_events (S k) l'
  end.

End Outcomes.

(** ** Converters used as scenarios *)

(** Every call returns status zero. *)
Definition always_ok : nat → list string → Completed :=
  λ _ _, CompletedProcess 0.

(** The tool is not installed: every call raises. *)
Definition not_installed : nat → list string → Completed :=
  λ _ _, FileNotFoundError.

(** Only the first call, for [(16, 1)], fails. *)
Definition fail_first : nat → list string → Completed :=
  λ k _, if (k =? 0)%nat then CompletedProcess 1 else CompletedProcess 0.

(** Only the last call, for [(512, 2)], fails. *)
Definition fail_last : nat → list string → Completed :=
  λ k _, if (k =? 9)%nat then CompletedProcess 1 else CompletedProcess 0.

(** The manifest lists the specs in the order of [SIZES]: its [i]-th entry
    describes the [i]-th spec. *)
Definition in_fixed_order (contents : json) : Prop :=
  ∀ (i : nat) (spec : SizeSpec),
    SIZES !! i = Some spec →
    ∃ e, images_of contents !! i = Some e ∧ describes spec e = true.

(** No failed call comes before a successful one. *)
Definition failures_last (spawn : nat → list string → Completed) : Prop :=
  ∀ i j : nat, (i < j < length SIZES)%nat →
               converter_ok spawn j = true → converter_ok spawn i = true.

(** The entries stand, one for one and in the same order, for the given
    specs: each entry carries the [size] and [scale] strings of its spec,
    and either the spec's file name under [filename] ([b = true]) or no
    [filename] field at all ([b = false]). *)
Definition listed_as (b : bool) (specs : list SizeSpec)
    (entries : list json) : Prop :=
  Forall2 (λ (spec : SizeSpec) (e : json),
             describes spec e = true
             ∧ has_key "filename" e = b
             ∧ str_field "filename" e
               = (if b then Some (filename_of spec.1 spec.2) else None))
    specs entries.

(** Within a list whose calls are numbered from [k], no failure comes
    before a success. *)
Definition failures_last_from (spawn : nat → list string → Completed)
    (k : nat) (l : list SizeSpec) : Prop :=
  ∀ (i j : nat) (x y : SizeSpec),
    (i < j)%nat → l !! i = Some x → l !! j = Some y →
    ok spawn (k + j) y = true → ok spawn (k + i) x = true.

(** The argument that follows [-o] on a command line. *)
Fixpoint output_of (argv : list string) : option string :=
  match argv with
  | [] => None
  | a :: rest =>
      if String.eqb a "-o" then head rest else output_of rest
  end.

(** The output paths handed to the processes spawned, in order. *)
Definition output_paths (tr : list Event) : list string :=
  omap output_of (runs tr).

(** The [filename] fields of a manifest, in order. *)
Definition filenames_of (contents : json) : list string :=
  omap (str_field "filename") (images_of contents).

(** ** Further observations *)

(** The converter as seen by a run that starts after [n] earlier calls. *)
Definition shift (spawn : nat → list string → Completed) (n : nat)
  : nat → list string → Completed :=
  λ k argv, spawn (n + k)%nat argv.

(** The files written by the script itself, with their contents, in order. *)
Definition writes (tr : list Event) : list (string * string) :=
  omap (λ e, match e with WriteFile p c => Some (p, c) | _ => None end) tr.

(** The line printed for the spec handled by a call with verdict [b]. *)
Definition report_line (b : bool) (spec : SizeSpec) : string :=
  if b then "Generated " +:+ filename_of spec.1 spec.2
  else skipped_message (filename_of spec.1 spec.2).

(** The keys of a JSON object, in order. *)
Definition keys_of (o : json) : list string :=
  match o with
  | JDict kvs => kvs.*1
  | _ => []
  end.

(** The verdicts of the ten calls of a run, in order. *)
Definition verdicts (spawn : nat → list string → Completed) : list bool :=
  map (converter_ok spawn) (seq 0 (length SIZES)).

(** A converter that returns status zero exactly where [flags] says so. *)
Definition replay (flags : list bool) : nat → list string → Completed :=
  λ k _, if nth k flags false then CompletedProcess 0 else CompletedProcess 1.

(** All the lists of [n] booleans. *)
Fixpoint all_flags (n : nat) : list (list bool) :=
  match n with
  | O => [[]]
  | S n' => map (cons true) (all_flags n') ++ map (cons false) (all_flags n')
  end.

(** A string as it stands in JSON text, between double quotes. *)
Definition quoted (s : string) : string :=
  String dquote (s +:+ String dquote "").

(** [needle] occurs somewhere in [text]. *)
Definition occurs (needle text : string) : bool :=
  match String.index 0 needle text with
  | Some _ => true
  | None => false
  end.

(** Two runs of [main], one after the other, from a fresh world. *)
Definition main_twice (spawn : nat → list string → Completed) : World :=
  snd (main spawn (snd (main spawn boot))).

(** ** The rasterisation loop *)

Section Loop.

Variable spawn : nat -> list string -> Completed.

Lemma rasterize_one_spec (images : list (string * Z * Z))
    (spec : SizeSpec) (tr : list Event) (k : nat) :
  rasterize_one spawn images spec (mkWorld tr k)
  = (images ++ (if ok spawn k spec then [image_of spec] else []),
     mkWorld (tr ++ loop_events spawn k [spec]) (S k)).
Proof.
  destruct spec as [size scale].
  cbn [loop_events].
  unfold rasterize_one, mbind, M_bind, subprocess_run, ok; simpl.
  destruct (spawn k (rsvg_argv size scale)) as [rc|]; simpl.
  - destruct (rc =? 0); simpl; unfold emit, mret, M_ret; simpl;
      rewrite <- ?app_assoc, ?app_nil_r; reflexivity.
  - unfold emit, mret, M_ret; simpl.
    rewrite <- app_assoc, app_nil_r. reflexivity.
Qed.

Lemma for_each_rasterize (l : list SizeSpec) :
  ∀ (k : nat) (tr : list Event) (images : list (string * Z * Z)),
    for_each l (rasterize_one spawn) images (mkWorld tr k)
    = (images ++ map image_of (verdict_from spawn true k l),
       mkWorld (tr ++ loop_events spawn k l) (k + length l)%nat).
Proof.
  induction l as [|spec l IH]; intros k tr images.
  - simpl. rewrite !app_nil_r, Nat.add_0_r. reflexivity.
  - cbn [for_each]. unfold mbind, M_bind.
    rewrite rasterize_one_spec, IH.
    cbn [verdict_from loop_events length].
    rewrite <- !app_assoc, Nat.add_succ_r. cbn [app].
    destruct (ok spawn k spec); reflexivity.
Qed.

Lemma append_produced_spec (P : list SizeSpec) :
  ∀ entries, append_produced entries (map image_of P)
             = entries ++ map full_entry P.
Proof.
  unfold append_produced.
  induction P as [|[size scale] P IH]; intros entries; simpl.
  - by rewrite app_nil_r.
  - rewrite IH, <- app_assoc. reflexivity.
Qed.

Lemma existing_of_spec (P : list SizeSpec) :
  existing_of (map image_of P) = list_to_set P.
Proof.
  unfold existing_of. f_equal.
  rewrite map_map. simpl.
  induction P as [|[size scale] P IH]; simpl; [done|]. by rewrite IH.
Qed.

Lemma append_missing_spec (E : gset (Z * Z)) :
  ∀ entries, append_missing entries E
             = entries ++ map bare_entry (filter (λ sp, sp ∉ E) SIZES).
Proof.
  unfold append_missing. generalize SIZES.
  induction l as [|[size scale] l IH]; intros entries; simpl.
  - by rewrite app_nil_r.
  - rewrite IH, filter_cons. simpl.
    repeat case_decide; try contradiction; simpl; [|done].
    rewrite <- app_assoc. reflexivity.
Qed.

Lemma verdict_from_sublist (b : bool) (l : list SizeSpec) :
  ∀ k, verdict_from spawn b k l `sublist_of` l.
Proof.
  induction l as [|spec l IH]; intros k; simpl; [constructor|].
  case_bool_decide; [apply sublist_skip | apply sublist_cons]; apply IH.
Qed.

Lemma elem_of_verdict_from (b : bool) (l : list SizeSpec) :
  NoDup l →
  ∀ (k i : nat) (spec : SizeSpec),
    l !! i = Some spec →
    spec ∈ verdict_from spawn b k l ↔ ok spawn (k + i) spec = b.
Proof.
  induction 1 as [|x l Hx Hnd IH]; intros k i spec Hi; [done|].
  assert (Hsub := verdict_from_sublist b l (S k)).
  destruct i as [|i]; simpl in Hi.
  - injection Hi as ->. rewrite Nat.add_0_r. simpl.
    case_bool_decide as Hb.
    + split; [done | intros _; apply list_elem_of_here].
    + split; [|done]. intros Hin. exfalso. apply Hx.
      eapply elem_of_sublist; eauto.
  - assert (spec ≠ x) as Hne.
    { intros ->. apply Hx. eapply list_elem_of_lookup_2; eauto. }
    rewrite Nat.add_succ_r, <- (IH (S k) i spec Hi). simpl.
    case_bool_decide; [|done].
    rewrite elem_of_cons. split; [intros [?|?]; done | by right].
Qed.

Lemma filter_verdict_false (P : SizeSpec → Prop) `{!∀ x, Decision (P x)}
    (l : list SizeSpec) :
  ∀ k, (∀ i spec, l !! i = Some spec →
                  P spec ↔ ok spawn (k + i) spec = false) →
       filter P l = verdict_from spawn false k l.
Proof.
  induction l as [|x l IH]; intros k HP; [done|].
  rewrite filter_cons. simpl.
  assert (filter P l = verdict_from spawn false (S k) l) as ->.
  { apply IH. intros i spec Hi.
    rewrite (HP (S i) spec Hi), Nat.add_succ_r. done. }
  pose proof (HP 0%nat x eq_refl) as H0. rewrite Nat.add_0_r in H0.
  case_decide; case_bool_decide; try done; exfalso; tauto.
Qed.

Lemma SIZES_NoDup : NoDup SIZES.
Proof. apply (bool_decide_unpack (NoDup SIZES)). vm_compute. exact I. Qed.

(** The manifest value in closed form. *)
Lemma manifest_eq :
  manifest spawn
  = JDict [ ("images",
             JList (map full_entry (produced_specs spawn)
                    ++ map bare_entry (missing_specs spawn)));
            ("info",
             JDict [("author", JString "xcode"); ("version", JInt 1)]) ].
Proof.
  unfold manifest, main_contents, mbind, M_bind, write_file, print,
    makedirs, boot, emit. cbn [trace spawned app].
  rewrite for_each_rasterize. unfold mret, M_ret. cbn [fst app].
  unfold build_contents.
  rewrite append_produced_spec, existing_of_spec, append_missing_spec.
  cbn [app]. do 6 f_equal. unfold missing_specs.
  apply filter_verdict_false. intros i spec Hi.
  rewrite not_elem_of_list_to_set.
  rewrite (elem_of_verdict_from true SIZES SIZES_NoDup 0 i spec Hi).
  destruct (ok spawn (0 + i) spec); split; try done; intros H; by destruct H.
Qed.

Lemma images_of_manifest :
  images_of (manifest spawn)
  = map full_entry (produced_specs spawn)
    ++ map bare_entry (missing_specs spawn).
Proof. rewrite manifest_eq. reflexivity. Qed.

(** The whole trace of a run in closed form. *)
Lemma run_trace_eq :
  run_trace spawn
  = prelude ++ loop_events spawn 0 SIZES
    ++ [ WriteFile contents_path (json_dumps (manifest spawn));
         Print ("Updated " +:+ contents_path) ].
Proof.
  unfold run_trace, manifest, main, main_contents, mbind, M_bind,
    write_file, print, makedirs, boot, emit. cbn [trace spawned app].
  rewrite for_each_rasterize. unfold mret, M_ret.
  cbn [fst snd trace]. rewrite <- !app_assoc. reflexivity.
Qed.

Lemma verdict_from_length (l : list SizeSpec) :
  ∀ k, (length (verdict_from spawn true k l)
        + length (verdict_from spawn false k l) = length l)%nat.
Proof.
  induction l as [|spec l IH]; intros k; simpl; [done|].
  specialize (IH (S k)).
  destruct (ok spawn k spec); repeat case_bool_decide; try done;
    simpl; lia.
Qed.

Lemma produced_specs_sublist : produced_specs spawn `sublist_of` SIZES.
Proof. apply verdict_from_sublist. Qed.

Lemma missing_specs_sublist : missing_specs spawn `sublist_of` SIZES.
Proof. apply verdict_from_sublist. Qed.

Lemma elem_of_produced_specs (i : nat) (spec : SizeSpec) :
  SIZES !! i = Some spec →
  spec ∈ produced_specs spawn ↔ converter_ok spawn i = true.
Proof.
  intros Hi. unfold converter_ok. rewrite Hi.
  apply (elem_of_verdict_from true SIZES SIZES_NoDup 0 i spec Hi).
Qed.

Lemma elem_of_missing_specs (i : nat) (spec : SizeSpec) :
  SIZES !! i = Some spec →
  spec ∈ missing_specs spawn ↔ converter_ok spawn i = false.
Proof.
  intros Hi. unfold converter_ok. rewrite Hi.
  apply (elem_of_verdict_from false SIZES SIZES_NoDup 0 i spec Hi).
Qed.

End Loop.

(** ** Entries and the specs they describe *)

(** On the fixed working set an entry, with or without a file name,
    describes exactly the spec it was built from. *)
Lemma describes_SIZES :
  Forall (λ spec, Forall (λ spec',
            describes spec (full_entry spec') = bool_decide (spec = spec')
            ∧ describes spec (bare_entry spec') = bool_decide (spec = spec'))
          SIZES) SIZES.
Proof. repeat (constructor; [repeat constructor|]). constructor. Qed.

Lemma describes_full_entry (spec spec' : SizeSpec) :
  spec ∈ SIZES → spec' ∈ SIZES →
  describes spec (full_entry spec') = bool_decide (spec = spec').
Proof.
  intros H1 H2. pose proof describes_SIZES as H.
  rewrite Forall_forall in H. specialize (H _ H1).
  rewrite Forall_forall in H. apply (H _ H2).
Qed.

Lemma describes_bare_entry (spec spec' : SizeSpec) :
  spec ∈ SIZES → spec' ∈ SIZES →
  describes spec (bare_entry spec') = bool_decide (spec = spec').
Proof.
  intros H1 H2. pose proof describes_SIZES as H.
  rewrite Forall_forall in H. specialize (H _ H1).
  rewrite Forall_forall in H. apply (H _ H2).
Qed.

(** Filtering the entries built from a duplicate-free part of the working
    set leaves the entry of the spec asked for, if it is there. *)
Lemma filter_describes (entry : SizeSpec → json) (spec : SizeSpec)
    (l : list SizeSpec) :
  (∀ spec', spec' ∈ SIZES →
            describes spec (entry spec') = bool_decide (spec = spec')) →
  l `sublist_of` SIZES →
  filter (λ e, describes spec e = true) (map entry l)
  = if decide (spec ∈ l) then [entry spec] else [].
Proof.
  intros Hd Hsub.
  assert (NoDup l) as Hnd by (eapply sublist_NoDup; eauto using SIZES_NoDup).
  assert (∀ x, x ∈ l → x ∈ SIZES) as Hin
    by (intros x Hx; eapply elem_of_sublist; eauto).
  clear Hsub. induction Hnd as [|x l Hx Hnd IH]; [done|].
  cbn [map]. rewrite filter_cons.
  rewrite (Hd x) by (apply Hin; left).
  rewrite IH by (intros y Hy; apply Hin; by right).
  destruct (decide (spec = x)) as [->|Hne].
  - rewrite bool_decide_eq_true_2 by done.
    rewrite decide_True by done.
    rewrite (decide_True (P := x ∈ x :: l)) by left.
    rewrite decide_False by done. reflexivity.
  - rewrite bool_decide_eq_false_2 by done.
    rewrite decide_False by done.
    destruct (decide (spec ∈ l)) as [Hl|Hl].
    + rewrite decide_True by (by right). reflexivity.
    + rewrite decide_False; [reflexivity|].
      rewrite elem_of_cons. intros [?|?]; done.
Qed.

(** ** The manifest, entry by entry *)

Section Manifest.

Variable spawn : nat -> list string -> Completed.

(** The manifest holds, for the [i]-th spec, exactly one entry: the full
    one if call [i] succeeded, the bare one if not. *)
Lemma entries_for_manifest (i : nat) (spec : SizeSpec) :
  SIZES !! i = Some spec →
  entries_for spec (manifest spawn)
  = [if converter_ok spawn i then full_entry spec else bare_entry spec].
Proof.
  intros Hi. unfold entries_for.
  assert (spec ∈ SIZES) as Hin by (eapply list_elem_of_lookup_2; eauto).
  rewrite images_of_manifest, filter_app.
  rewrite (filter_describes full_entry), (filter_describes bare_entry);
    auto using produced_specs_sublist, missing_specs_sublist,
      describes_full_entry, describes_bare_entry.
  pose proof (elem_of_produced_specs spawn i spec Hi) as HP.
  pose proof (elem_of_missing_specs spawn i spec Hi) as HM.
  destruct (converter_ok spawn i).
  - rewrite decide_True by (by apply HP).
    rewrite decide_False; [reflexivity|]. rewrite HM. done.
  - rewrite decide_False by (rewrite HP; done).
    rewrite decide_True by (by apply HM). reflexivity.
Qed.

Lemma images_of_manifest_length :
  length (images_of (manifest spawn)) = 10%nat.
Proof.
  rewrite images_of_manifest, length_app, !length_map.
  apply (verdict_from_length spawn SIZES 0).
Qed.

Lemma converter_ok_true (i : nat) (size scale : Z) :
  SIZES !! i = Some (size, scale) →
  converter_ok spawn i = true
  ↔ spawn i (rsvg_argv size scale) = CompletedProcess 0.
Proof.
  intros Hi. unfold converter_ok, ok. rewrite Hi. simpl.
  destruct (spawn i (rsvg_argv size scale)) as [rc|]; simpl.
  - rewrite Z.eqb_eq. split; [by intros -> | by intros [= ->]].
  - split; done.
Qed.

(** The file [Contents.json] ends up holding the serialised manifest. *)
Lemma manifest_written :
  file_content contents_path (run_trace spawn)
  = Some (json_dumps (manifest spawn)).
Proof.
  rewrite run_trace_eq. unfold file_content.
  rewrite !omap_app. cbn [omap list_omap].
  rewrite decide_True by done.
  rewrite app_assoc. apply last_snoc.
Qed.

End Manifest.

(** ** What the result depends on *)

Section Dependence.

Variables spawn spawn' : nat → list string → Completed.

(** The selection only looks at the verdicts. *)
Lemma verdict_from_ext (b : bool) (l : list SizeSpec) :
  ∀ k, (∀ i spec, l !! i = Some spec →
                  ok spawn (k + i) spec = ok spawn' (k + i) spec) →
       verdict_from spawn b k l = verdict_from spawn' b k l.
Proof.
  induction l as [|x l IH]; intros k H; [done|]. simpl.
  pose proof (H 0%nat x eq_refl) as H0. rewrite Nat.add_0_r in H0.
  rewrite H0, (IH (S k)); [done|].
  intros i spec Hi.
    replace (S k + i)%nat with (k + S i)%nat by lia. by apply (H (S i)).
Qed.

Lemma manifest_ext :
  (∀ i, (i < length SIZES)%nat →
        converter_ok spawn i = converter_ok spawn' i) →
  manifest spawn = manifest spawn'.
Proof.
  intros H. rewrite !manifest_eq. unfold produced_specs, missing_specs.
  assert (∀ i spec, SIZES !! i = Some spec →
                    ok spawn (0 + i) spec = ok spawn' (0 + i) spec) as H'.
  { intros i spec Hi. specialize (H i (lookup_lt_Some _ _ _ Hi)).
    unfold converter_ok in H. by rewrite Hi in H. }
  by rewrite !(verdict_from_ext _ SIZES 0 H').
Qed.

End Dependence.

Section Events.

Variable spawn : nat → list string → Completed.

Lemma runs_loop_events (l : list SizeSpec) :
  ∀ k, runs (loop_events spawn k l) = map (λ sp, rsvg_argv sp.1 sp.2) l.
Proof.
  induction l as [|x l IH]; intros k; [done|].
  unfold runs in *. simpl. by rewrite IH.
Qed.

Lemma runs_run_trace :
  runs (run_trace spawn) = map (λ sp, rsvg_argv sp.1 sp.2) SIZES.
Proof.
  rewrite run_trace_eq. unfold runs. rewrite !omap_app.
  fold (runs (loop_events spawn 0 SIZES)). rewrite runs_loop_events.
  cbn [omap list_omap prelude app]. by rewrite app_nil_r.
Qed.

(** If every call has the verdict [b], the selection for [b] is the whole
    list, the other one is empty, and the loop prints the same kind of
    line for every spec. *)
Lemma verdict_from_all (b : bool) (l : list SizeSpec) :
  ∀ k, (∀ i spec, l !! i = Some spec → ok spawn (k + i) spec = b) →
       verdict_from spawn b k l = l
       ∧ verdict_from spawn (negb b) k l = []
       ∧ loop_events spawn k l
         = flat_map (λ sp, [ Run (rsvg_argv sp.1 sp.2);
                             Print (if b
                                    then "Generated "
                                         +:+ filename_of sp.1 sp.2
                                    else skipped_message
                                           (filename_of sp.1 sp.2)) ]) l.
Proof.
  induction l as [|x l IH]; intros k H; [done|]. simpl.
  pose proof (H 0%nat x eq_refl) as H0. rewrite Nat.add_0_r in H0.
  destruct (IH (S k)) as (-> & -> & ->).
  { intros i spec Hi.
    replace (S k + i)%nat with (k + S i)%nat by lia. by apply (H (S i)). }
  rewrite H0, bool_decide_eq_true_2 by done.
  rewrite bool_decide_eq_false_2 by (by destruct b). done.
Qed.

End Events.

(** ** File names and output paths *)

Lemma filename_of_NoDup :
  NoDup (map (λ sp : SizeSpec, filename_of sp.1 sp.2) SIZES).
Proof.
  apply (bool_decide_unpack
           (NoDup (map (λ sp : SizeSpec, filename_of sp.1 sp.2) SIZES))).
  vm_compute. exact I.
Qed.

Lemma filenames_full (l : list SizeSpec) :
  omap (str_field "filename") (map full_entry l)
  = map (λ sp : SizeSpec, filename_of sp.1 sp.2) l.
Proof. induction l as [|[??] l IH]; [done|]. cbn. by f_equal. Qed.

Lemma filenames_bare (l : list SizeSpec) :
  omap (str_field "filename") (map bare_entry l) = [].
Proof. induction l as [|[??] l IH]; [done|]. cbn. exact IH. Qed.

Lemma filenames_of_manifest (spawn : nat → list string → Completed) :
  filenames_of (manifest spawn)
  = map (λ sp : SizeSpec, filename_of sp.1 sp.2) (produced_specs spawn).
Proof.
  unfold filenames_of.
  rewrite images_of_manifest, omap_app, filenames_full, filenames_bare.
  apply app_nil_r.
Qed.

Lemma output_paths_run_trace (spawn : nat → list string → Completed) :
  output_paths (run_trace spawn)
  = map (λ sp : SizeSpec, filepath_of sp.1 sp.2) SIZES.
Proof. unfold output_paths. rewrite runs_run_trace. reflexivity. Qed.

(** ** When the manifest follows the order of [SIZES] *)

Section Order.

Variable spawn : nat → list string → Completed.

Lemma failures_last_from_tail (k : nat) (x : SizeSpec)
    (l : list SizeSpec) :
  failures_last_from spawn k (x :: l) → failures_last_from spawn (S k) l.
Proof.
  intros H i j a b Hij Ha Hb.
  replace (S k + j)%nat with (k + S j)%nat by lia.
  replace (S k + i)%nat with (k + S i)%nat by lia.
  apply (H (S i) (S j) a b); [lia | done | done].
Qed.

Lemma verdict_from_app (l : list SizeSpec) :
  ∀ k, failures_last_from spawn k l →
       verdict_from spawn true k l ++ verdict_from spawn false k l = l.
Proof.
  induction l as [|x l IH]; intros k H; [done|].
  cbn [verdict_from]. destruct (ok spawn k x) eqn:Hx.
  - rewrite bool_decide_eq_true_2, bool_decide_eq_false_2 by done.
    cbn [app]. f_equal. eauto using failures_last_from_tail.
  - rewrite bool_decide_eq_false_2, bool_decide_eq_true_2 by done.
    destruct (verdict_from_all spawn false l (S k)) as (H1 & H2 & _);
      [|simpl negb in H2; by rewrite H1, H2].
    intros j y Hj. destruct (ok spawn (S k + j) y) eqn:Hy; [|done].
    replace (S k + j)%nat with (k + S j)%nat in Hy by lia.
    pose proof (H 0%nat (S j) x y (Nat.lt_0_succ j) eq_refl Hj Hy) as H0.
    rewrite Nat.add_0_r in H0. congruence.
Qed.

Lemma verdict_from_app_inv (l : list SizeSpec) :
  NoDup l →
  ∀ k, verdict_from spawn true k l ++ verdict_from spawn false k l = l →
       failures_last_from spawn k l.
Proof.
  induction 1 as [|x l Hx Hnd IH]; intros k Happ i j a b Hij Ha Hb Hok.
  { by rewrite lookup_nil in Ha. }
  destruct j as [|j]; [lia|]. cbn in Hb.
  cbn [verdict_from] in Happ. destruct (ok spawn k x) eqn:Hk.
  - rewrite bool_decide_eq_true_2, bool_decide_eq_false_2 in Happ by done.
    injection Happ as Happ.
    destruct i as [|i]; cbn in Ha.
    + injection Ha as <-. by rewrite Nat.add_0_r.
    + replace (k + S i)%nat with (S k + i)%nat by lia.
      apply (IH (S k) Happ i j a b); [lia | done | done |].
      by replace (S k + j)%nat with (k + S j)%nat by lia.
  - exfalso.
    rewrite bool_decide_eq_false_2, bool_decide_eq_true_2 in Happ by done.
    destruct (verdict_from spawn true (S k) l) as [|y P] eqn:HP.
    + pose proof (elem_of_verdict_from spawn true l Hnd (S k) j b Hb)
        as Hin.
      rewrite HP in Hin.
      replace (S k + j)%nat with (k + S j)%nat in Hin by lia.
      apply Hin in Hok. by apply elem_of_nil in Hok.
    + injection Happ as -> _. apply Hx.
      apply (elem_of_sublist _ _ _ (list_elem_of_here x P)).
      rewrite <- HP. apply verdict_from_sublist.
Qed.

Lemma failures_last_iff :
  failures_last spawn ↔ failures_last_from spawn 0 SIZES.
Proof.
  unfold failures_last, failures_last_from, converter_ok. split.
  - intros H i j x y Hij Hx Hy Hok.
    specialize (H i j). rewrite Hx, Hy in H. apply H; [|done].
    split; [done|]. by apply lookup_lt_Some in Hy.
  - intros H i j [Hij Hj] Hok.
    destruct (lookup_lt_is_Some_2 SIZES j Hj) as [y Hy].
    destruct (lookup_lt_is_Some_2 SIZES i) as [x Hx]; [lia|].
    rewrite Hx. rewrite Hy in Hok. by apply (H i j x y).
Qed.

(** Entry [i] of the manifest is built from element [i] of the produced
    specs followed by the missing specs. *)
Lemma images_of_manifest_lookup (i : nat) :
  images_of (manifest spawn) !! i
  = (λ sp, if decide (i < length (produced_specs spawn))%nat
           then full_entry sp else bare_entry sp)
    <$> (produced_specs spawn ++ missing_specs spawn) !! i.
Proof.
  rewrite images_of_manifest.
  change (map ?f ?l) with (f <$> l).
  destruct (decide (i < length (produced_specs spawn))%nat) as [Hlt|Hge].
  - rewrite !lookup_app_l by (by rewrite ?length_fmap).
    apply list_lookup_fmap.
  - rewrite !lookup_app_r by (rewrite ?length_fmap; lia).
    rewrite length_fmap. apply list_lookup_fmap.
Qed.

Lemma in_fixed_order_iff :
  in_fixed_order (manifest spawn)
  ↔ produced_specs spawn ++ missing_specs spawn = SIZES.
Proof.
  split.
  - intros H. apply list_eq. intros i.
    destruct (SIZES !! i) as [spec|] eqn:Hi.
    + destruct (H i spec Hi) as (e & He & Hd).
      rewrite images_of_manifest_lookup in He.
      destruct ((produced_specs spawn ++ missing_specs spawn) !! i)
        as [spec'|] eqn:Hi'; [|done].
      f_equal. symmetry.
      assert (spec ∈ SIZES) by (eapply list_elem_of_lookup_2; eauto).
      assert (spec' ∈ SIZES).
      { apply list_elem_of_lookup_2, elem_of_app in Hi' as [?|?];
          eapply elem_of_sublist;
          eauto using produced_specs_sublist, missing_specs_sublist. }
      injection He as <-.
      case_decide;
        [rewrite describes_full_entry in Hd by done
        |rewrite describes_bare_entry in Hd by done];
        by apply bool_decide_eq_true_1 in Hd.
    + apply lookup_ge_None. apply lookup_ge_None in Hi.
      rewrite length_app.
      unfold produced_specs, missing_specs.
      rewrite (verdict_from_length spawn SIZES 0). done.
  - intros Heq i spec Hi.
    assert (spec ∈ SIZES) by (eapply list_elem_of_lookup_2; eauto).
    rewrite images_of_manifest_lookup, Heq, Hi. simpl.
    eexists. split; [done|].
    case_decide;
      [rewrite describes_full_entry by done
      |rewrite describes_bare_entry by done];
      by apply bool_decide_eq_true_2.
Qed.

End Order.

(** ** The two parts of the [images] list *)

Lemma describes_self (spec : SizeSpec) :
  describes spec (full_entry spec) = true
  ∧ describes spec (bare_entry spec) = true.
Proof.
  destruct spec as [size scale]. unfold describes. cbn.
  by rewrite !bool_decide_eq_true_2.
Qed.

Lemma listed_as_full (specs : list SizeSpec) :
  listed_as true specs (map full_entry specs).
Proof.
  unfold listed_as. change (map ?f ?l) with (f <$> l).
  apply Forall2_fmap_r, Forall_Forall2_diag, Forall_forall.
  intros spec _. split; [apply describes_self|].
  destruct spec as [size scale]. split; reflexivity.
Qed.

Lemma listed_as_bare (specs : list SizeSpec) :
  listed_as false specs (map bare_entry specs).
Proof.
  unfold listed_as. change (map ?f ?l) with (f <$> l).
  apply Forall2_fmap_r, Forall_Forall2_diag, Forall_forall.
  intros spec _. split; [apply describes_self|].
  destruct spec as [size scale]. split; reflexivity.
Qed.

(** The first [length produced_specs] entries stand for the produced specs
    and the remaining ones for the missing specs. *)
Lemma images_of_manifest_parts (spawn : nat → list string → Completed) :
  listed_as true (produced_specs spawn)
    (take (length (produced_specs spawn)) (images_of (manifest spawn)))
  ∧ listed_as false (missing_specs spawn)
      (drop (length (produced_specs spawn)) (images_of (manifest spawn))).
Proof.
  rewrite images_of_manifest.
  rewrite take_app_length', drop_app_length' by (by rewrite length_map).
  split; [apply listed_as_full | apply listed_as_bare].
Qed.

(** ** The scenarios of the specification, by evaluation *)

Example all_ok_first_entry :
  images_of (manifest always_ok) !! 0%nat
  = Some (JDict [ ("filename", JString "icon_16x16@1x.png");
                  ("idiom", JString "mac");
                  ("scale", JString "1x");
                  ("size", JString "16x16") ]).
Proof. reflexivity. Qed.

Example all_ok_filenames :
  filenames_of (manifest always_ok)
  = [ "icon_16x16@1x.png"; "icon_16x16@2x.png";
      "icon_32x32@1x.png"; "icon_32x32@2x.png";
      "icon_128x128@1x.png"; "icon_128x128@2x.png";
      "icon_256x256@1x.png"; "icon_256x256@2x.png";
      "icon_512x512@1x.png"; "icon_512x512@2x.png" ].
Proof. reflexivity. Qed.

Example not_installed_first_entry :
  images_of (manifest not_installed) !! 0%nat
  = Some (JDict [ ("idiom", JString "mac");
                  ("scale", JString "1x");
                  ("size", JString "16x16") ])
  ∧ filenames_of (manifest not_installed) = [].
Proof. split; reflexivity. Qed.

Example fail_first_order :
  omap (str_field "size") (images_of (manifest fail_first))
  = [ "16x16"; "32x32"; "32x32"; "128x128"; "128x128";
      "256x256"; "256x256"; "512x512"; "512x512"; "16x16" ]
  ∧ omap (str_field "scale") (images_of (manifest fail_first))
    = [ "2x"; "1x"; "2x"; "1x"; "2x"; "1x"; "2x"; "1x"; "2x"; "1x" ].
Proof. split; reflexivity. Qed.

Example dump_info_block :
  json_dumps (JDict [("author", JString "xcode"); ("version", JInt 1)])
  = "{" +:+ newline_indent 1 +:+ String dquote "author" +:+ String dquote ": "
    +:+ String dquote "xcode" +:+ String dquote ","
    +:+ newline_indent 1 +:+ String dquote "version" +:+ String dquote ": 1"
    +:+ newline_indent 0 +:+ "}".
Proof. reflexivity. Qed.

(** ** The claims about the manifest *)

(** C1, as stated, fails: when only the first call fails, the first entry
    of the [images] list is the one of [(16, 2)], while the first spec of
    [SIZES] is [(16, 1)]. *)
Lemma C1_counterexample :
  SIZES !! 0%nat = Some (16, 1)
  ∧ images_of (manifest fail_first) !! 0%nat
    = Some (produced_entry "icon_16x16@2x.png" 16 2)
  ∧ describes (16, 1) (produced_entry "icon_16x16@2x.png" 16 2) = false
  ∧ ¬ in_fixed_order (manifest fail_first).
Proof.
  split; [reflexivity|]. split; [reflexivity|]. split; [reflexivity|].
  intros H. destruct (H 0%nat (16, 1) eq_refl) as (e & He & Hd).
  vm_compute in He. injection He as <-. vm_compute in Hd. discriminate.
Qed.

(** C1, amended: the [i]-th entry of the [images] list describes the
    [i]-th spec of [SIZES], for every [i], exactly when no failed converter
    call comes before a successful one (in particular when all calls
    succeed or all fail).  In general the list has two parts.  The first
    part stands, entry by entry, for the Produced specs in the order of
    [SIZES]: each entry carries the [size] and [scale] strings of its spec
    and the spec's file name.  The second part stands, entry by entry, for
    the Missing specs in the order of [SIZES]: each entry carries the
    [size] and [scale] strings of its spec and no [filename]. *)
Theorem C1_fixed_order_iff_failures_last
    (spawn : nat → list string → Completed) :
  (in_fixed_order (manifest spawn) ↔ failures_last spawn)
  ∧ listed_as true (produced_specs spawn)
      (take (length (produced_specs spawn)) (images_of (manifest spawn)))
  ∧ listed_as false (missing_specs spawn)
      (drop (length (produced_specs spawn)) (images_of (manifest spawn)))
  ∧ produced_specs spawn `sublist_of` SIZES
  ∧ missing_specs spawn `sublist_of` SIZES
  ∧ ∀ (i : nat) (spec : SizeSpec),
      SIZES !! i = Some spec →
      (spec ∈ produced_specs spawn ↔ converter_ok spawn i = true)
      ∧ (spec ∈ missing_specs spawn ↔ converter_ok spawn i = false).
Proof.
  split.
  { rewrite in_fixed_order_iff, failures_last_iff. split.
    - apply (verdict_from_app_inv spawn SIZES SIZES_NoDup 0).
    - apply (verdict_from_app spawn SIZES 0). }
  destruct (images_of_manifest_parts spawn) as [Hp Hm].
  split; [exact Hp|]. split; [exact Hm|].
  split; [apply produced_specs_sublist|].
  split; [apply missing_specs_sublist|].
  intros i spec Hi.
  split; [by apply elem_of_produced_specs | by apply elem_of_missing_specs].
Qed.

Lemma C1_witness :
  in_fixed_order (manifest fail_last)
  ∧ SIZES !! 0%nat = Some (16, 1)
  ∧ ((16, 1) ∈ produced_specs fail_last
     ↔ converter_ok fail_last 0 = true).
Proof.
  destruct (C1_fixed_order_iff_failures_last fail_last)
    as (Hiff & _ & _ & _ & _ & Hmem).
  split; [|split; [reflexivity | exact (proj1 (Hmem 0%nat (16, 1) eq_refl))]].
  apply (proj2 Hiff).
  intros i j [Hij Hj] Hok. simpl in Hj.
  do 9 (destruct i as [|i]; [reflexivity|]). lia.
Defined.

(** C9: for every behaviour of the converter, the [images] list consists of
    the entries with a [filename], for the Produced specs in the order of
    [SIZES], followed by the entries without a [filename], for the Missing
    specs in the order of [SIZES].  Each entry of the first part carries
    the [size] and [scale] strings of its spec and the spec's file name;
    each entry of the second part carries the [size] and [scale] strings
    of its spec and no [filename]. *)
Theorem C9_produced_first_then_missing
    (spawn : nat → list string → Completed) :
  images_of (manifest spawn)
  = map full_entry (produced_specs spawn)
    ++ map bare_entry (missing_specs spawn)
  ∧ listed_as true (produced_specs spawn)
      (take (length (produced_specs spawn)) (images_of (manifest spawn)))
  ∧ listed_as false (missing_specs spawn)
      (drop (length (produced_specs spawn)) (images_of (manifest spawn)))
  ∧ (length (produced_specs spawn) + length (missing_specs spawn)
     = length (images_of (manifest spawn)))%nat
  ∧ Forall (λ e, has_key "filename" e = true)
       (map full_entry (produced_specs spawn))
  ∧ Forall (λ e, has_key "filename" e = false)
       (map bare_entry (missing_specs spawn))
  ∧ produced_specs spawn `sublist_of` SIZES
  ∧ missing_specs spawn `sublist_of` SIZES
  ∧ ∀ (i : nat) (spec : SizeSpec),
      SIZES !! i = Some spec →
      (spec ∈ produced_specs spawn ↔ converter_ok spawn i = true)
      ∧ (spec ∈ missing_specs spawn ↔ converter_ok spawn i = false).
Proof.
  split; [apply images_of_manifest|].
  destruct (images_of_manifest_parts spawn) as [Hp Hm].
  split; [exact Hp|]. split; [exact Hm|].
  split; [by rewrite images_of_manifest, length_app, !length_map|].
  split; [apply Forall_fmap, Forall_forall; intros [??] _; reflexivity|].
  split; [apply Forall_fmap, Forall_forall; intros [??] _; reflexivity|].
  split; [apply produced_specs_sublist|].
  split; [apply missing_specs_sublist|].
  intros i spec Hi.
  split; [by apply elem_of_produced_specs | by apply elem_of_missing_specs].
Qed.

Lemma C9_witness :
  SIZES !! 9%nat = Some (512, 2)
  ∧ ((512, 2) ∈ missing_specs fail_last
     ↔ converter_ok fail_last 9 = false).
Proof.
  split; [reflexivity|].
  destruct (C9_produced_first_then_missing fail_last)
    as (_ & _ & _ & _ & _ & _ & _ & _ & H).
  exact (proj2 (H 9%nat (512, 2) eq_refl)).
Defined.

(** C2: for every behaviour of the converter the [images] list has exactly
    10 entries, exactly one for each spec of [SIZES]; that entry carries a
    [filename] field if and only if the spec was Produced, and its [size]
    and [scale] fields are the strings [{base}x{base}] and [{scale}x];
    every entry of the list is the entry of some spec. *)
Theorem C2_one_entry_per_spec (spawn : nat → list string → Completed) :
  length (images_of (manifest spawn)) = 10%nat
  ∧ (∀ (i : nat) (size scale : Z),
       SIZES !! i = Some (size, scale) →
       ∃ e, entries_for (size, scale) (manifest spawn) = [e]
            ∧ has_key "filename" e = converter_ok spawn i
            ∧ str_field "size" e = Some (str size +:+ "x" +:+ str size)
            ∧ str_field "scale" e = Some (str scale +:+ "x"))
  ∧ (∀ e, e ∈ images_of (manifest spawn) →
          ∃ spec, spec ∈ SIZES ∧ entries_for spec (manifest spawn) = [e]).
Proof.
  split; [apply images_of_manifest_length|]. split.
  - intros i size scale Hi. eexists. split.
    + apply (entries_for_manifest spawn i (size, scale) Hi).
    + destruct (converter_ok spawn i); repeat split; reflexivity.
  - intros e He. rewrite images_of_manifest, elem_of_app in He.
    destruct He as [He|He]; apply list_elem_of_fmap in He
      as (spec & -> & Hspec).
    + assert (spec ∈ SIZES) as Hin
        by (eapply elem_of_sublist; eauto using produced_specs_sublist).
      exists spec. split; [done|].
      apply list_elem_of_lookup_1 in Hin as [i Hi].
      rewrite (entries_for_manifest spawn i spec Hi).
      apply (elem_of_produced_specs spawn i spec Hi) in Hspec.
      by rewrite Hspec.
    + assert (spec ∈ SIZES) as Hin
        by (eapply elem_of_sublist; eauto using missing_specs_sublist).
      exists spec. split; [done|].
      apply list_elem_of_lookup_1 in Hin as [i Hi].
      rewrite (entries_for_manifest spawn i spec Hi).
      apply (elem_of_missing_specs spawn i spec Hi) in Hspec.
      by rewrite Hspec.
Qed.

Lemma C2_witness :
  SIZES !! 9%nat = Some (512, 2)
  ∧ ∃ e, entries_for (512, 2) (manifest fail_last) = [e]
         ∧ has_key "filename" e = false
         ∧ str_field "size" e = Some "512x512"
         ∧ str_field "scale" e = Some "2x".
Proof.
  split; [reflexivity|].
  exact (proj1 (proj2 (C2_one_entry_per_spec fail_last))
           9%nat 512 2 eq_refl).
Defined.

(** C3: for the [i]-th spec [(size, scale)] of [SIZES], if the converter
    call for it returns status zero then the manifest entry of that spec
    has [filename] equal to [icon_{size}x{size}@{scale}x.png]; if the call
    does anything else, the entry of that spec has no [filename] field. *)
Theorem C3_filename_iff_success (spawn : nat → list string → Completed)
    (i : nat) (size scale : Z) :
  SIZES !! i = Some (size, scale) →
  (spawn i (rsvg_argv size scale) = CompletedProcess 0 →
   ∃ e, entries_for (size, scale) (manifest spawn) = [e]
        ∧ str_field "filename" e
          = Some ("icon_" +:+ str size +:+ "x" +:+ str size
                  +:+ "@" +:+ str scale +:+ "x.png"))
  ∧ (spawn i (rsvg_argv size scale) ≠ CompletedProcess 0 →
     ∃ e, entries_for (size, scale) (manifest spawn) = [e]
          ∧ has_key "filename" e = false).
Proof.
  intros Hi.
  pose proof (entries_for_manifest spawn i (size, scale) Hi) as He.
  pose proof (converter_ok_true spawn i size scale Hi) as Hok.
  split; intros Hrc.
  - apply Hok in Hrc. rewrite Hrc in He. eexists. split; [exact He|].
    reflexivity.
  - destruct (converter_ok spawn i).
    + exfalso. apply Hrc, Hok. reflexivity.
    + eexists. split; [exact He|]. reflexivity.
Qed.

Lemma C3_witness :
  (∃ e, entries_for (16, 1) (manifest fail_last) = [e]
        ∧ str_field "filename" e = Some "icon_16x16@1x.png")
  ∧ (∃ e, entries_for (512, 2) (manifest fail_last) = [e]
          ∧ has_key "filename" e = false).
Proof.
  split.
  - exact (proj1 (C3_filename_iff_success fail_last 0 16 1 eq_refl)
             eq_refl).
  - refine (proj2 (C3_filename_iff_success fail_last 9 512 2 eq_refl) _).
    discriminate.
Defined.

(** C4: if every attempt to start the converter raises the tool-not-found
    error, the run goes through all 10 specs (one process is attempted for
    each), prints the [Skipped ...] diagnostic for every one of them, still
    writes the manifest, and the manifest has 10 entries, none of which has
    a [filename] field. *)
Theorem C4_tool_unavailable (spawn : nat → list string → Completed) :
  (∀ k argv, spawn k argv = FileNotFoundError) →
  run_trace spawn
  = prelude
    ++ flat_map (λ sp : SizeSpec,
         [ Run (rsvg_argv sp.1 sp.2);
           Print ("Skipped " +:+ filename_of sp.1 sp.2
                  +:+ " - install librsvg: brew install librsvg") ]) SIZES
    ++ [ WriteFile contents_path (json_dumps (manifest spawn));
         Print ("Updated " +:+ contents_path) ]
  ∧ length (runs (run_trace spawn)) = 10%nat
  ∧ Forall (λ sp : SizeSpec,
              Print ("Skipped " +:+ filename_of sp.1 sp.2
                     +:+ " - install librsvg: brew install librsvg")
              ∈ run_trace spawn) SIZES
  ∧ file_content contents_path (run_trace spawn)
    = Some (json_dumps (manifest spawn))
  ∧ images_of (manifest spawn)
    = map (λ sp : SizeSpec, missing_entry sp.1 sp.2) SIZES
  ∧ filter (λ e, has_key "filename" e = true) (images_of (manifest spawn))
    = [].
Proof.
  intros Hnf.
  destruct (verdict_from_all spawn false SIZES 0) as (Hm & Hp & Hev).
  { intros i spec _. unfold ok. by rewrite Hnf. }
  assert (images_of (manifest spawn)
          = map (λ sp : SizeSpec, missing_entry sp.1 sp.2) SIZES) as Himg.
  { rewrite images_of_manifest. unfold produced_specs, missing_specs.
    simpl negb in Hp. rewrite Hp, Hm. reflexivity. }
  assert (run_trace spawn
          = prelude
            ++ flat_map (λ sp : SizeSpec,
                 [ Run (rsvg_argv sp.1 sp.2);
                   Print ("Skipped " +:+ filename_of sp.1 sp.2
                          +:+ " - install librsvg: brew install librsvg") ])
                 SIZES
            ++ [ WriteFile contents_path (json_dumps (manifest spawn));
                 Print ("Updated " +:+ contents_path) ]) as Htr.
  { rewrite run_trace_eq, Hev. reflexivity. }
  split; [exact Htr|].
  split; [by rewrite runs_run_trace|].
  split.
  { rewrite Htr. apply Forall_forall. intros sp Hsp.
    rewrite !elem_of_app. right; left.
    apply list_elem_of_In, in_flat_map. exists sp.
    split; [by apply list_elem_of_In | right; left; reflexivity]. }
  split; [apply manifest_written|].
  split; [exact Himg|].
  rewrite Himg. reflexivity.
Qed.

Lemma C4_witness :
  length (runs (run_trace not_installed)) = 10%nat
  ∧ filter (λ e, has_key "filename" e = true)
      (images_of (manifest not_installed)) = [].
Proof.
  destruct (C4_tool_unavailable not_installed (λ _ _, eq_refl))
    as (_ & Hruns & _ & _ & _ & Hnone).
  exact (conj Hruns Hnone).
Defined.

(** C6: whatever the converter does, it is started exactly once for each
    spec [(size, scale)], in the order of [SIZES], with width and height
    both [size * scale] and with the output path
    [ICON_DIR/icon_{size}x{size}@{scale}x.png]; the target directory is
    created (if absent) before the first process is started. *)
Theorem C6_one_invocation_per_spec (spawn : nat → list string → Completed) :
  runs (run_trace spawn)
  = map (λ sp : SizeSpec,
           [ "rsvg-convert";
             "-w"; str (sp.1 * sp.2); "-h"; str (sp.1 * sp.2);
             "-o"; ICON_DIR +:+ "/" +:+ "icon_" +:+ str sp.1 +:+ "x"
                   +:+ str sp.1 +:+ "@" +:+ str sp.2 +:+ "x.png";
             "/tmp/enclave_icon.svg" ]) SIZES
  ∧ NoDup (runs (run_trace spawn))
  ∧ ∃ before after,
      run_trace spawn = before ++ MakeDirs ICON_DIR true :: after
      ∧ runs before = [].
Proof.
  split; [rewrite runs_run_trace; reflexivity|].
  split.
  - rewrite runs_run_trace.
    apply (bool_decide_unpack
             (NoDup (map (λ sp : SizeSpec, rsvg_argv sp.1 sp.2) SIZES))).
    vm_compute. exact I.
  - exists [ WriteFile svg_path SVG_CONTENT;
             Print ("Created SVG at " +:+ svg_path) ].
    eexists. split; [rewrite run_trace_eq; reflexivity | reflexivity].
Qed.

(** C8: two runs in which the converter succeeds for the same specs and
    fails for the same specs serialise the same text, and leave the same
    content in [Contents.json]. *)
Theorem C8_deterministic (spawn spawn' : nat → list string → Completed) :
  (∀ i, (i < length SIZES)%nat →
        converter_ok spawn i = converter_ok spawn' i) →
  json_dumps (manifest spawn) = json_dumps (manifest spawn')
  ∧ file_content contents_path (run_trace spawn)
    = file_content contents_path (run_trace spawn').
Proof.
  intros H. rewrite !manifest_written.
  by rewrite (manifest_ext spawn spawn' H).
Qed.

Lemma C8_witness :
  json_dumps (manifest fail_last)
  = json_dumps (manifest (λ k _, match k with
                                 | 9%nat => FileNotFoundError
                                 | _ => CompletedProcess 0
                                 end)).
Proof.
  refine (proj1 (C8_deterministic fail_last _ _)).
  intros i Hi. do 10 (destruct i as [|i]; [reflexivity|]).
  simpl in Hi. lia.
Defined.

(** C5: if the converter runs for the [i]-th spec and returns a non-zero
    status, the entry of that spec has no [filename]; the loop still starts
    exactly one process per spec, in order (the failed call is not
    repeated and the later specs are attempted); and the entries of all
    other specs are what they are in any run that differs only in what
    call [i] did. *)
Theorem C5_failure_is_local (spawn : nat → list string → Completed)
    (i : nat) (size scale rc : Z) :
  SIZES !! i = Some (size, scale) →
  spawn i (rsvg_argv size scale) = CompletedProcess rc →
  rc ≠ 0 →
  entries_for (size, scale) (manifest spawn) = [missing_entry size scale]
  ∧ runs (run_trace spawn) = map (λ sp : SizeSpec, rsvg_argv sp.1 sp.2) SIZES
  ∧ ∀ spawn' : nat → list string → Completed,
      (∀ k argv, k ≠ i → spawn' k argv = spawn k argv) →
      ∀ (j : nat) (spec : SizeSpec),
        j ≠ i → SIZES !! j = Some spec →
        entries_for spec (manifest spawn')
        = entries_for spec (manifest spawn).
Proof.
  intros Hi Hrun Hrc. split; [|split].
  - rewrite (entries_for_manifest spawn i (size, scale) Hi).
    destruct (converter_ok spawn i) eqn:Hok; [|reflexivity].
    apply (converter_ok_true spawn i size scale Hi) in Hok.
    rewrite Hrun in Hok. by injection Hok.
  - apply runs_run_trace.
  - intros spawn' Hsame j spec Hj Hspec.
    rewrite (entries_for_manifest spawn' j spec Hspec),
      (entries_for_manifest spawn j spec Hspec).
    unfold converter_ok, ok. rewrite Hspec, (Hsame j _ Hj). reflexivity.
Qed.

Lemma C5_witness :
  entries_for (16, 1) (manifest fail_first) = [missing_entry 16 1]
  ∧ entries_for (16, 2) (manifest always_ok)
    = entries_for (16, 2) (manifest fail_first).
Proof.
  assert ((1 : Z) ≠ 0) as H10 by discriminate.
  destruct (C5_failure_is_local fail_first 0 16 1 1 eq_refl eq_refl H10)
    as (Hentry & _ & Hothers).
  split; [exact Hentry|].
  refine (Hothers always_ok _ 1%nat (16, 2) _ eq_refl); [|discriminate].
  intros [|k] argv Hk; [contradiction | reflexivity].
Defined.

(** C7: if the converter returns status zero for the first nine specs and
    does not for the last one, [(512, 2)], then exactly 9 entries of the
    [images] list carry a [filename] and exactly one does not; that one has
    [size] equal to [512x512] and [scale] equal to [2x]. *)
Theorem C7_only_last_fails (spawn : nat → list string → Completed) :
  (∀ (i : nat) (size scale : Z),
     (i < 9)%nat → SIZES !! i = Some (size, scale) →
     spawn i (rsvg_argv size scale) = CompletedProcess 0) →
  spawn 9%nat (rsvg_argv 512 2) ≠ CompletedProcess 0 →
  length (filter (λ e, has_key "filename" e = true)
            (images_of (manifest spawn))) = 9%nat
  ∧ ∃ e, filter (λ e, has_key "filename" e = false)
           (images_of (manifest spawn)) = [e]
         ∧ str_field "size" e = Some "512x512"
         ∧ str_field "scale" e = Some "2x".
Proof.
  intros Hfirst Hlast.
  assert (manifest spawn = manifest fail_last) as ->.
  { apply manifest_ext. intros i Hi.
    destruct (decide (i = 9%nat)) as [->|Hne].
    - destruct (converter_ok spawn 9) eqn:Hok; [|reflexivity].
      apply (converter_ok_true spawn 9 512 2 eq_refl) in Hok. done.
    - destruct (SIZES !! i) as [[size scale]|] eqn:Hspec.
      + transitivity true; [|symmetry].
        * apply (converter_ok_true spawn i size scale Hspec).
          apply Hfirst; [simpl in Hi; lia | done].
        * apply (converter_ok_true fail_last i size scale Hspec).
          unfold fail_last. by rewrite (proj2 (Nat.eqb_neq i 9) Hne).
      + apply lookup_ge_None in Hspec. lia. }
  split; [reflexivity|].
  eexists. split; [reflexivity|]. split; reflexivity.
Qed.

Lemma C7_witness :
  length (filter (λ e, has_key "filename" e = true)
            (images_of (manifest fail_last))) = 9%nat
  ∧ ∃ e, filter (λ e, has_key "filename" e = false)
           (images_of (manifest fail_last)) = [e]
         ∧ str_field "size" e = Some "512x512"
         ∧ str_field "scale" e = Some "2x".
Proof.
  apply (C7_only_last_fails fail_last).
  - intros i size scale Hi _. unfold fail_last.
    by rewrite (proj2 (Nat.eqb_neq i 9)) by lia.
  - discriminate.
Defined.

(** C10: on the 10 specs of [SIZES] the map from a spec to its file name
    [icon_{size}x{size}@{scale}x.png] is injective; hence, for every
    behaviour of the converter, the [filename] values of the manifest are
    pairwise distinct, and the output paths given to the converter, one per
    spec, are pairwise distinct. *)
Theorem C10_filenames_distinct :
  (∀ s1 s2 : SizeSpec,
     s1 ∈ SIZES → s2 ∈ SIZES →
     "icon_" +:+ str s1.1 +:+ "x" +:+ str s1.1 +:+ "@" +:+ str s1.2 +:+ "x.png"
     = "icon_" +:+ str s2.1 +:+ "x" +:+ str s2.1 +:+ "@" +:+ str s2.2
       +:+ "x.png" →
     s1 = s2)
  ∧ ∀ spawn : nat → list string → Completed,
      NoDup (filenames_of (manifest spawn))
      ∧ output_paths (run_trace spawn)
        = map (λ sp : SizeSpec,
                 ICON_DIR +:+ "/" +:+ filename_of sp.1 sp.2) SIZES
      ∧ NoDup (output_paths (run_trace spawn)).
Proof.
  split.
  - intros s1 s2 H1 H2 Heq.
    apply list_elem_of_lookup_1 in H1 as [i Hi].
    apply list_elem_of_lookup_1 in H2 as [j Hj].
    assert (i = j) as ->; [|congruence].
    apply (NoDup_lookup _ i j (filename_of s1.1 s1.2) filename_of_NoDup).
    + change (map ?f ?l) with (f <$> l).
      rewrite list_lookup_fmap, Hi. reflexivity.
    + change (map ?f ?l) with (f <$> l).
      rewrite list_lookup_fmap, Hj. simpl. f_equal. symmetry. exact Heq.
  - intros spawn. split; [|split].
    + rewrite filenames_of_manifest.
      eapply sublist_NoDup; [apply filename_of_NoDup|].
      apply (fmap_sublist _ _ _ (produced_specs_sublist spawn)).
    + rewrite output_paths_run_trace. reflexivity.
    + rewrite output_paths_run_trace.
      apply (bool_decide_unpack
               (NoDup (map (λ sp : SizeSpec, filepath_of sp.1 sp.2) SIZES))).
      vm_compute. exact I.
Qed.

Lemma C10_witness :
  (16, 2) ∈ SIZES
  ∧ "icon_16x16@2x.png" = "icon_16x16@2x.png"
  ∧ (16, 2) = ((16, 2) : SizeSpec).
Proof.
  assert ((16, 2) ∈ SIZES) as H1 by (right; left).
  split; [exact H1|]. split; [reflexivity|].
  exact (proj1 C10_filenames_distinct (16, 2) (16, 2) H1 H1 eq_refl).
Defined.

(** ** Runs from an arbitrary world *)

Section Frame.

Variable spawn : nat → list string → Completed.

Lemma verdict_from_shift (b : bool) (n : nat) (l : list SizeSpec) :
  ∀ k, verdict_from spawn b (n + k) l = verdict_from (shift spawn n) b k l.
Proof.
  induction l as [|x l IH]; intros k; [done|].
  cbn [verdict_from]. rewrite <- IH, Nat.add_succ_r. reflexivity.
Qed.

Lemma loop_events_shift (n : nat) (l : list SizeSpec) :
  ∀ k, loop_events spawn (n + k) l = loop_events (shift spawn n) k l.
Proof.
  induction l as [|x l IH]; intros k; [done|].
  cbn [loop_events]. rewrite <- IH, Nat.add_succ_r. reflexivity.
Qed.

Lemma main_contents_run (w : World) :
  main_contents spawn w
  = (build_contents
       (map image_of (verdict_from spawn true (spawned w) SIZES)),
     mkWorld (trace w ++ prelude ++ loop_events spawn (spawned w) SIZES)
       (spawned w + length SIZES)).
Proof.
  destruct w as [tr k].
  unfold main_contents, mbind, M_bind, write_file, print, makedirs, emit.
  cbn [trace spawned].
  rewrite for_each_rasterize. unfold mret, M_ret. cbn [app].
  rewrite <- !app_assoc. reflexivity.
Qed.

Lemma manifest_build :
  manifest spawn
  = build_contents (map image_of (verdict_from spawn true 0 SIZES)).
Proof. unfold manifest. rewrite main_contents_run. reflexivity. Qed.

End Frame.

(** X7 (frame): from any world, [main] leaves what was already in the trace
    untouched and appends to it exactly the events of a fresh run against
    the converter as it behaves from the current call number on; it spawns
    10 more processes. *)
Theorem main_from_any_world (spawn : nat → list string → Completed)
    (w : World) :
  main spawn w
  = (tt, mkWorld (trace w ++ run_trace (shift spawn (spawned w)))
           (spawned w + 10)).
Proof.
  unfold main, mbind, M_bind. rewrite main_contents_run.
  unfold write_file, print, emit. cbn [trace spawned].
  rewrite run_trace_eq, manifest_build.
  rewrite <- (verdict_from_shift spawn true (spawned w) SIZES 0).
  rewrite <- (loop_events_shift spawn (spawned w) SIZES 0).
  rewrite Nat.add_0_r, <- !app_assoc. reflexivity.
Qed.

(** ** Files written, processes spawned, lines printed *)

Section Transcript.

Variable spawn : nat → list string → Completed.

Lemma writes_loop_events (l : list SizeSpec) :
  ∀ k, writes (loop_events spawn k l) = [].
Proof. induction l as [|x l IH]; intros k; [done|]. apply IH. Qed.

Lemma writes_run_trace :
  writes (run_trace spawn)
  = [ (svg_path, SVG_CONTENT);
      (contents_path, json_dumps (manifest spawn)) ].
Proof.
  rewrite run_trace_eq. unfold writes. rewrite !omap_app.
  fold (writes (loop_events spawn 0 SIZES)). rewrite writes_loop_events.
  reflexivity.
Qed.

Lemma file_content_writes (path : string) (tr : list Event) :
  file_content path tr
  = last (omap (λ pc : string * string,
                  if decide (pc.1 = path) then Some pc.2 else None)
            (writes tr)).
Proof.
  unfold file_content, writes. f_equal.
  induction tr as [|e tr IH]; [done|].
  destruct e as [line|p c|p b|argv]; cbn; try exact IH.
  destruct (decide (p = path)); by rewrite IH.
Qed.

Lemma file_content_app (path : string) (tr1 tr2 : list Event) :
  file_content path (tr1 ++ tr2)
  = match file_content path tr2 with
    | Some c => Some c
    | None => file_content path tr1
    end.
Proof. unfold file_content. rewrite omap_app. apply last_app. Qed.

Lemma printed_loop_events (l : list SizeSpec) :
  ∀ k, printed (loop_events spawn k l)
       = imap (λ i spec, report_line (ok spawn (k + i) spec) spec) l.
Proof.
  induction l as [|x l IH]; intros k; [done|].
  rewrite imap_cons. cbn [loop_events]. unfold printed in *. cbn.
  rewrite Nat.add_0_r. f_equal. rewrite IH.
  apply imap_ext. intros i y _. simpl. by rewrite Nat.add_succ_r.
Qed.

End Transcript.

(** X1: whatever the converter does, the first thing the script does is to
    write the SVG document to [/tmp/enclave_icon.svg]; at the end of the run
    that file still holds the SVG document; and every process started is
    [rsvg-convert] with 7 arguments, the last of which, the input file, is
    that path. *)
Theorem svg_written_before_use (spawn : nat → list string → Completed) :
  head (run_trace spawn) = Some (WriteFile "/tmp/enclave_icon.svg" SVG_CONTENT)
  ∧ file_content "/tmp/enclave_icon.svg" (run_trace spawn) = Some SVG_CONTENT
  ∧ Forall (λ argv, head argv = Some "rsvg-convert"
                    ∧ last argv = Some "/tmp/enclave_icon.svg"
                    ∧ length argv = 8%nat)
      (runs (run_trace spawn)).
Proof.
  split; [by rewrite run_trace_eq|]. split.
  - rewrite file_content_writes, writes_run_trace. reflexivity.
  - rewrite runs_run_trace. apply Forall_fmap, Forall_forall.
    intros [size scale] _. repeat split.
Qed.

(** X2: the script itself writes exactly two files, in this order: the SVG
    source and [Contents.json] (it never writes a PNG itself); the manifest
    is written after all ten converter processes have been started, and the
    only thing that follows is the final [Updated ...] line. *)
Theorem script_writes_two_files (spawn : nat → list string → Completed) :
  writes (run_trace spawn)
  = [ ("/tmp/enclave_icon.svg", SVG_CONTENT);
      (ICON_DIR +:+ "/Contents.json", json_dumps (manifest spawn)) ]
  ∧ ∃ before,
      run_trace spawn
      = before
        ++ [ WriteFile (ICON_DIR +:+ "/Contents.json")
               (json_dumps (manifest spawn));
             Print ("Updated " +:+ ICON_DIR +:+ "/Contents.json") ]
      ∧ runs before = runs (run_trace spawn)
      ∧ length (runs before) = length SIZES.
Proof.
  split; [apply writes_run_trace|].
  exists (prelude ++ loop_events spawn 0 SIZES).
  split; [rewrite run_trace_eq, <- app_assoc; reflexivity|].
  assert (runs (prelude ++ loop_events spawn 0 SIZES)
          = runs (run_trace spawn)) as ->.
  { rewrite run_trace_eq. unfold runs. rewrite !omap_app.
    cbn [omap list_omap]. by rewrite !app_nil_r. }
  split; [done|]. by rewrite runs_run_trace, length_map.
Qed.

(** X3: the console transcript of a run has 12 lines: [Created SVG at ...],
    then one line per spec in the order of [SIZES] ([Generated <file>] if
    the call for that spec returned zero, [Skipped <file> - install ...]
    otherwise), then [Updated .../Contents.json]. *)
Theorem console_transcript (spawn : nat → list string → Completed) :
  printed (run_trace spawn)
  = "Created SVG at /tmp/enclave_icon.svg"
    :: imap (λ i (spec : SizeSpec),
               if converter_ok spawn i
               then "Generated " +:+ filename_of spec.1 spec.2
               else "Skipped " +:+ filename_of spec.1 spec.2
                    +:+ " - install librsvg: brew install librsvg") SIZES
    ++ [ "Updated " +:+ ICON_DIR +:+ "/Contents.json" ]
  ∧ length (printed (run_trace spawn)) = 12%nat.
Proof.
  assert (printed (run_trace spawn)
          = "Created SVG at /tmp/enclave_icon.svg"
            :: imap (λ i (spec : SizeSpec),
                       if converter_ok spawn i
                       then "Generated " +:+ filename_of spec.1 spec.2
                       else "Skipped " +:+ filename_of spec.1 spec.2
                            +:+ " - install librsvg: brew install librsvg")
                 SIZES
            ++ [ "Updated " +:+ ICON_DIR +:+ "/Contents.json" ]) as Heq.
  { rewrite run_trace_eq. unfold printed. rewrite !omap_app.
    fold (printed (loop_events spawn 0 SIZES)).
    rewrite printed_loop_events.
    change (omap _ prelude) with ["Created SVG at /tmp/enclave_icon.svg"].
    rewrite (imap_ext _ (λ i (spec : SizeSpec),
               if converter_ok spawn i
               then "Generated " +:+ filename_of spec.1 spec.2
               else "Skipped " +:+ filename_of spec.1 spec.2
                    +:+ " - install librsvg: brew install librsvg"));
      [reflexivity|].
    intros i spec Hi. simpl.
    unfold converter_ok. rewrite Hi. reflexivity. }
  split; [exact Heq|].
  rewrite Heq. cbn [length]. rewrite length_app, length_imap. reflexivity.
Qed.

(** X8: when [main] is run twice in a row, the second run starts 10 more
    processes, rewrites both files, and [Contents.json] ends up describing
    the second run only: nothing of the first manifest is kept or merged. *)
Theorem rerun_rebuilds_manifest (spawn : nat → list string → Completed) :
  trace (main_twice spawn) = run_trace spawn ++ run_trace (shift spawn 10)
  ∧ spawned (main_twice spawn) = 20%nat
  ∧ file_content contents_path (trace (main_twice spawn))
    = Some (json_dumps (manifest (shift spawn 10)))
  ∧ file_content svg_path (trace (main_twice spawn)) = Some SVG_CONTENT.
Proof.
  assert (main_twice spawn
          = mkWorld (run_trace spawn ++ run_trace (shift spawn 10)) 20)
    as ->.
  { unfold main_twice. rewrite !main_from_any_world. reflexivity. }
  cbn [trace spawned]. split; [done|]. split; [done|].
  rewrite !file_content_app, manifest_written. split; [done|].
  rewrite !file_content_writes, !writes_run_trace. reflexivity.
Qed.

(** X9: re-running is idempotent on the manifest: if each spec gets the
    same verdict in the second run as in the first, [Contents.json] holds
    after the second run exactly what it held after the first. *)
Theorem rerun_idempotent (spawn : nat → list string → Completed) :
  (∀ i, (i < length SIZES)%nat →
        converter_ok spawn i = converter_ok (shift spawn 10) i) →
  file_content contents_path (trace (main_twice spawn))
  = file_content contents_path (run_trace spawn).
Proof.
  intros H.
  destruct (rerun_rebuilds_manifest spawn) as (_ & _ & -> & _).
  rewrite manifest_written. f_equal. f_equal. symmetry.
  by apply manifest_ext.
Qed.

Lemma rerun_idempotent_witness :
  file_content contents_path (trace (main_twice not_installed))
  = file_content contents_path (run_trace not_installed).
Proof.
  apply (rerun_idempotent not_installed).
  intros i Hi. do 10 (destruct i as [|i]; [vm_compute; reflexivity|]).
  simpl in Hi. lia.
Defined.

(** ** Reasoning by cases on the ten verdicts *)

Lemma elem_of_all_flags (n : nat) :
  ∀ flags : list bool, length flags = n → flags ∈ all_flags n.
Proof.
  induction n as [|n IH]; intros [|b flags] Hlen; try done.
  - apply list_elem_of_here.
  - injection Hlen as Hlen. cbn [all_flags]. rewrite elem_of_app.
    change (map ?f ?l) with (f <$> l).
    destruct b; [left | right]; apply list_elem_of_fmap_2; auto.
Qed.

Lemma verdicts_nth (spawn : nat → list string → Completed) (i : nat) :
  (i < length SIZES)%nat →
  nth i (verdicts spawn) false = converter_ok spawn i.
Proof.
  intros Hi. do 10 (destruct i as [|i]; [reflexivity|]). simpl in Hi. lia.
Qed.

Lemma replay_ok (flags : list bool) (i : nat) :
  (i < length SIZES)%nat →
  converter_ok (replay flags) i = nth i flags false.
Proof.
  intros Hi. unfold converter_ok, ok, replay.
  do 10 (destruct i as [|i];
         [cbn [lookup list_lookup SIZES]; by destruct (nth _ flags false)|]).
  simpl in Hi. lia.
Qed.

Lemma manifest_replay (spawn : nat → list string → Completed) :
  manifest spawn = manifest (replay (verdicts spawn)).
Proof.
  apply manifest_ext. intros i Hi.
  by rewrite replay_ok, verdicts_nth.
Qed.

Lemma verdicts_all_flags (spawn : nat → list string → Completed) :
  verdicts spawn ∈ all_flags 10.
Proof. by apply elem_of_all_flags. Qed.

(** A boolean check that holds of the manifest replayed from every list of
    ten verdicts holds of the manifest of every run. *)
Lemma manifest_by_cases (check : list bool → json → bool) :
  forallb (λ flags, check flags (manifest (replay flags))) (all_flags 10)
  = true →
  ∀ spawn, check (verdicts spawn) (manifest spawn) = true.
Proof.
  intros Hall spawn. rewrite forallb_forall in Hall.
  rewrite manifest_replay.
  apply (Hall (verdicts spawn)), list_elem_of_In, verdicts_all_flags.
Qed.

(** X10: the text of [Contents.json] tells which renditions exist: the
    quoted file name of a spec occurs in the serialised manifest exactly
    when the converter call for that spec returned status zero. *)
Theorem filename_in_text_iff_success (spawn : nat → list string → Completed)
    (i : nat) (size scale : Z) :
  SIZES !! i = Some (size, scale) →
  occurs (quoted ("icon_" +:+ str size +:+ "x" +:+ str size
                  +:+ "@" +:+ str scale +:+ "x.png"))
    (json_dumps (manifest spawn))
  = converter_ok spawn i.
Proof.
  intros Hi.
  pose proof (manifest_by_cases
    (λ flags contents,
       let text := json_dumps contents in
       forallb (λ '(j, (sz, sc)),
                  Bool.eqb (occurs (quoted (filename_of sz sc)) text)
                    (nth j flags false))
         (imap pair SIZES))) as H.
  specialize (H ltac:(vm_compute; reflexivity) spawn).
  rewrite forallb_forall in H.
  specialize (H (i, (size, scale))). cbn beta iota zeta in H.
  rewrite verdicts_nth in H by (by apply lookup_lt_Some in Hi).
  apply Bool.eqb_prop, H, list_elem_of_In.
  apply list_elem_of_lookup_2 with i.
  by rewrite list_lookup_imap, Hi.
Qed.

Lemma filename_in_text_iff_success_witness :
  occurs (quoted "icon_512x512@2x.png") (json_dumps (manifest fail_last))
  = false.
Proof.
  exact (filename_in_text_iff_success fail_last 9 512 2 eq_refl).
Defined.

(** X11: the converse of C8: two runs that serialise the same manifest text
    had the same verdict for every spec.  With C8, the text of
    [Contents.json] and the ten verdicts determine each other. *)
Theorem same_text_same_verdicts
    (spawn spawn' : nat → list string → Completed) :
  json_dumps (manifest spawn) = json_dumps (manifest spawn') →
  ∀ i, (i < length SIZES)%nat →
       converter_ok spawn i = converter_ok spawn' i.
Proof.
  intros Heq i Hi.
  destruct (lookup_lt_is_Some_2 SIZES i Hi) as [[size scale] Hspec].
  rewrite <- (filename_in_text_iff_success spawn i size scale Hspec).
  rewrite <- (filename_in_text_iff_success spawn' i size scale Hspec).
  by rewrite Heq.
Qed.

Lemma same_text_same_verdicts_witness :
  converter_ok fail_last 9
  = converter_ok (λ k _, match k with
                         | 9%nat => FileNotFoundError
                         | _ => CompletedProcess 0
                         end) 9.
Proof.
  refine (same_text_same_verdicts fail_last _ _ 9%nat _).
  - vm_compute. reflexivity.
  - simpl. lia.
Defined.

(** ** The console and the manifest tell the same story *)

Lemma filename_of_inj_SIZES (s1 s2 : SizeSpec) :
  s1 ∈ SIZES → s2 ∈ SIZES →
  filename_of s1.1 s1.2 = filename_of s2.1 s2.2 → s1 = s2.
Proof.
  intros H1 H2 Heq.
  apply list_elem_of_lookup_1 in H1 as [i Hi].
  apply list_elem_of_lookup_1 in H2 as [j Hj].
  assert (i = j) as ->; [|congruence].
  apply (NoDup_lookup _ i j (filename_of s1.1 s1.2) filename_of_NoDup);
    change (map ?f ?l) with (f <$> l); rewrite list_lookup_fmap.
  - by rewrite Hi.
  - rewrite Hj. simpl. by rewrite Heq.
Qed.

Lemma filename_in_manifest (spawn : nat → list string → Completed)
    (i : nat) (spec : SizeSpec) :
  SIZES !! i = Some spec →
  filename_of spec.1 spec.2 ∈ filenames_of (manifest spawn)
  ↔ converter_ok spawn i = true.
Proof.
  intros Hi. rewrite filenames_of_manifest.
  rewrite <- (elem_of_produced_specs spawn i spec Hi).
  change (map ?f ?l) with (f <$> l). rewrite list_elem_of_fmap. split.
  - intros (spec' & Heq & Hin).
    rewrite (filename_of_inj_SIZES spec spec'); [done| | |done].
    + eapply list_elem_of_lookup_2; eauto.
    + eapply elem_of_sublist; eauto using produced_specs_sublist.
  - intros Hin. by exists spec.
Qed.

Lemma report_line_inj_SIZES (b b' : bool) (spec spec' : SizeSpec) :
  spec ∈ SIZES → spec' ∈ SIZES →
  report_line b spec = report_line b' spec' → b = b' ∧ spec = spec'.
Proof.
  intros H1 H2.
  assert (Forall (λ s1 : SizeSpec, Forall (λ s2 : SizeSpec,
            ∀ c c' : bool, report_line c s1 = report_line c' s2 →
                           c = c' ∧ s1 = s2) SIZES) SIZES) as Hall.
  { apply (bool_decide_unpack _). vm_compute. exact I. }
  rewrite Forall_forall in Hall. specialize (Hall _ H1).
  rewrite Forall_forall in Hall. apply (Hall _ H2).
Qed.

Lemma report_line_in_printed (spawn : nat → list string → Completed)
    (b : bool) (i : nat) (spec : SizeSpec) :
  SIZES !! i = Some spec →
  report_line b spec ∈ printed (run_trace spawn)
  ↔ converter_ok spawn i = b.
Proof.
  intros Hi.
  assert (spec ∈ SIZES) by (eapply list_elem_of_lookup_2; eauto).
  rewrite (proj1 (console_transcript spawn)).
  rewrite elem_of_cons, elem_of_app, list_elem_of_lookup.
  setoid_rewrite list_lookup_imap. split.
  - intros [Hc|[[j Hj]|Hu]].
    + by destruct b.
    + destruct (SIZES !! j) as [spec'|] eqn:Hspec'; [|done].
      injection Hj as Hj.
      assert (spec' ∈ SIZES) by (eapply list_elem_of_lookup_2; eauto).
      symmetry in Hj.
      change (report_line b spec = report_line (converter_ok spawn j) spec')
        in Hj.
      apply report_line_inj_SIZES in Hj as [-> ->]; [|done..].
      f_equal. eapply NoDup_lookup; eauto using SIZES_NoDup.
    + apply list_elem_of_singleton in Hu. by destruct b.
  - intros <-. right; left. exists i. rewrite Hi. reflexivity.
Qed.

(** X4: the console and the manifest agree.  For the [i]-th spec, the line
    [Generated <file>] is printed exactly when [<file>] is a [filename] of
    the manifest, and the line [Skipped <file> - install librsvg: ...] is
    printed exactly when it is not. *)
Theorem console_agrees_with_manifest
    (spawn : nat → list string → Completed) (i : nat) (size scale : Z) :
  SIZES !! i = Some (size, scale) →
  ("Generated " +:+ filename_of size scale ∈ printed (run_trace spawn)
   ↔ filename_of size scale ∈ filenames_of (manifest spawn))
  ∧ ("Skipped " +:+ filename_of size scale
     +:+ " - install librsvg: brew install librsvg"
     ∈ printed (run_trace spawn)
     ↔ filename_of size scale ∉ filenames_of (manifest spawn)).
Proof.
  intros Hi.
  pose proof (filename_in_manifest spawn i (size, scale) Hi) as Hm.
  pose proof (report_line_in_printed spawn true i (size, scale) Hi) as Hg.
  pose proof (report_line_in_printed spawn false i (size, scale) Hi) as Hs.
  cbn [fst snd report_line] in Hm, Hg, Hs.
  split; [by rewrite Hg, Hm|].
  unfold skipped_message in Hs. rewrite Hs, Hm.
  destruct (converter_ok spawn i); split; try done; intros H; by destruct H.
Qed.

Lemma console_agrees_with_manifest_witness :
  "Generated icon_16x16@1x.png" ∈ printed (run_trace fail_last)
  ↔ "icon_16x16@1x.png" ∈ filenames_of (manifest fail_last).
Proof.
  exact (proj1 (console_agrees_with_manifest fail_last 0 16 1 eq_refl)).
Defined.

(** ** The shape of the manifest *)

(** X5: every entry of every manifest is tagged with the idiom [mac] and
    has the keys [filename, idiom, scale, size] or [idiom, scale, size], in
    that order; the manifest itself has the keys [images, info], and its
    [info] block is always [author = xcode, version = 1]. *)
Theorem manifest_shape (spawn : nat → list string → Completed) :
  keys_of (manifest spawn) = ["images"; "info"]
  ∧ dict_get "info" (manifest spawn)
    = Some (JDict [("author", JString "xcode"); ("version", JInt 1)])
  ∧ Forall (λ e, str_field "idiom" e = Some "mac"
                 ∧ (keys_of e = ["filename"; "idiom"; "scale"; "size"]
                    ∨ keys_of e = ["idiom"; "scale"; "size"]))
      (images_of (manifest spawn)).
Proof.
  split; [by rewrite manifest_eq|]. split; [by rewrite manifest_eq|].
  rewrite images_of_manifest. apply Forall_app. split.
  - apply Forall_fmap, Forall_forall. intros [size scale] _.
    split; [reflexivity | left; reflexivity].
  - apply Forall_fmap, Forall_forall. intros [size scale] _.
    split; [reflexivity | right; reflexivity].
Qed.

(** ** [build_contents] on an arbitrary list of images *)

Lemma append_produced_any (images : list (string * Z * Z)) :
  ∀ entries,
    append_produced entries images
    = entries ++ map (λ img, produced_entry img.1.1 img.1.2 img.2) images.
Proof.
  unfold append_produced.
  induction images as [|[[f s] sc] images IH]; intros entries; simpl.
  - by rewrite app_nil_r.
  - rewrite IH, <- app_assoc. reflexivity.
Qed.

(** X6: lines 81-98 on any list of [(filename, size, scale)] triples, also
    one with repeated or foreign sizes: every triple yields an entry with
    its file name, in order, and a bare entry follows for each spec of
    [SIZES] whose [(size, scale)] pair is the pair of no triple, whatever
    the file names are. *)
Theorem build_contents_any (images : list (string * Z * Z)) :
  images_of (build_contents images)
  = map (λ img, produced_entry img.1.1 img.1.2 img.2) images
    ++ map (λ sp : SizeSpec, missing_entry sp.1 sp.2)
         (filter (λ sp : SizeSpec, sp ∉ map (λ img, (img.1.2, img.2)) images)
            SIZES)
  ∧ filenames_of (build_contents images) = map (λ img, img.1.1) images.
Proof.
  assert (images_of (build_contents images)
          = map (λ img, produced_entry img.1.1 img.1.2 img.2) images
            ++ map (λ sp : SizeSpec, missing_entry sp.1 sp.2)
                 (filter (λ sp : SizeSpec,
                            sp ∉ map (λ img, (img.1.2, img.2)) images)
                    SIZES)) as Heq.
  { change (images_of (build_contents images))
      with (append_missing (append_produced [] images) (existing_of images)).
    rewrite append_missing_spec, append_produced_any. cbn [app].
    f_equal. f_equal. apply list_filter_iff. intros sp.
    unfold existing_of. rewrite not_elem_of_list_to_set.
    assert (map (λ '(_, s, sc), (s, sc)) images
            = map (λ img : string * Z * Z, (img.1.2, img.2)) images) as ->;
      [|done].
    apply map_ext. by intros [[??]?]. }
  split; [exact Heq|].
  unfold filenames_of. rewrite Heq, omap_app.
  assert (∀ l : list SizeSpec,
            omap (str_field "filename")
              (map (λ sp : SizeSpec, missing_entry sp.1 sp.2) l) = []) as ->.
  { induction l as [|[??] l IH]; [done | exact IH]. }
  rewrite app_nil_r.
  clear Heq. induction images as [|[[f s] sc] images IH]; [done|]. cbn. by f_equal.
Qed.

(** ** Paths *)

(** X12: whatever the converter does, every output path handed to it lies
    in the icon-set directory, and none of them is the SVG source or
    [Contents.json], the two files the script writes itself: the converter
    is never asked to overwrite its input or the manifest. *)
Theorem output_paths_safe (spawn : nat → list string → Completed) :
  Forall (λ path, String.prefix (ICON_DIR +:+ "/icon_") path = true)
    (output_paths (run_trace spawn))
  ∧ (svg_path ∉ output_paths (run_trace spawn))
  ∧ (contents_path ∉ output_paths (run_trace spawn))
  ∧ (writes (run_trace spawn)).*1 = [svg_path; contents_path].
Proof.
  rewrite output_paths_run_trace, writes_run_trace.
  split; [|split; [|split]].
  - apply (bool_decide_unpack _). vm_compute. exact I.
  - apply (bool_decide_unpack _). vm_compute. exact I.
  - apply (bool_decide_unpack _). vm_compute. exact I.
  - reflexivity.
Qed.

(** ** How the manifest varies with the verdicts *)

(** X13: the number of entries with a [filename] is the number of converter
    calls that returned zero, and the number of entries without one is the
    number of calls that did not. *)
Theorem filename_count (spawn : nat → list string → Completed) :
  length (filter (λ e, has_key "filename" e = true)
            (images_of (manifest spawn)))
  = length (filter (λ b : bool, b = true) (verdicts spawn))
  ∧ length (filter (λ e, has_key "filename" e = false)
              (images_of (manifest spawn)))
    = length (filter (λ b : bool, b = false) (verdicts spawn)).
Proof.
  pose proof (manifest_by_cases
    (λ flags contents,
       (length (filter (λ e, has_key "filename" e = true)
                  (images_of contents))
        =? length (filter (λ b : bool, b = true) flags))%nat
       && (length (filter (λ e, has_key "filename" e = false)
                     (images_of contents))
           =? length (filter (λ b : bool, b = false) flags))%nat)) as H.
  specialize (H ltac:(vm_compute; reflexivity) spawn).
  apply andb_prop in H as [H1 H2].
  by apply Nat.eqb_eq in H1, H2.
Qed.

Section Monotone.

Variables spawn spawn' : nat → list string → Completed.

Lemma verdict_from_mono (l : list SizeSpec) :
  ∀ k, (∀ i spec, l !! i = Some spec →
                  ok spawn (k + i) spec = true →
                  ok spawn' (k + i) spec = true) →
       verdict_from spawn true k l `sublist_of` verdict_from spawn' true k l.
Proof.
  induction l as [|x l IH]; intros k H; [constructor|]. cbn [verdict_from].
  assert (verdict_from spawn true (S k) l
          `sublist_of` verdict_from spawn' true (S k) l) as Hrec.
  { apply IH. intros i spec Hi.
    replace (S k + i)%nat with (k + S i)%nat by lia. by apply (H (S i)). }
  pose proof (H 0%nat x eq_refl) as H0. rewrite Nat.add_0_r in H0.
  repeat case_bool_decide.
  - by apply sublist_skip.
  - exfalso. auto.
  - by apply sublist_cons.
  - done.
Qed.

End Monotone.

(** X14: the manifest grows with the successes: if every call that
    succeeds in one run also succeeds in another, the [filename] values of
    the first manifest appear, in the same order, among those of the
    second. *)
Theorem more_successes_more_filenames
    (spawn spawn' : nat → list string → Completed) :
  (∀ i, (i < length SIZES)%nat →
        converter_ok spawn i = true → converter_ok spawn' i = true) →
  filenames_of (manifest spawn) `sublist_of` filenames_of (manifest spawn').
Proof.
  intros H. rewrite !filenames_of_manifest.
  apply (fmap_sublist _ _ _). apply verdict_from_mono.
  intros i spec Hi. specialize (H i (lookup_lt_Some _ _ _ Hi)).
  unfold converter_ok in H. by rewrite Hi in H.
Qed.

Lemma more_successes_more_filenames_witness :
  filenames_of (manifest fail_last)
  `sublist_of` filenames_of (manifest always_ok).
Proof.
  apply (more_successes_more_filenames fail_last always_ok).
  intros i Hi _. do 10 (destruct i as [|i]; [reflexivity|]).
  simpl in Hi. lia.
Defined.

(** X15: if the converter returns status zero for every spec, the manifest
    lists the ten full entries in the order of [SIZES], the console shows a
    [Generated] line for each spec and no [Skipped] line. *)
Theorem all_succeed (spawn : nat → list string → Completed) :
  (∀ i size scale,
     SIZES !! i = Some (size, scale) →
     spawn i (rsvg_argv size scale) = CompletedProcess 0) →
  images_of (manifest spawn)
  = map (λ sp : SizeSpec,
           produced_entry (filename_of sp.1 sp.2) sp.1 sp.2) SIZES
  ∧ printed (run_trace spawn)
    = "Created SVG at /tmp/enclave_icon.svg"
      :: map (λ sp : SizeSpec, "Generated " +:+ filename_of sp.1 sp.2) SIZES
      ++ [ "Updated " +:+ ICON_DIR +:+ "/Contents.json" ].
Proof.
  intros Hall.
  assert (∀ i, (i < length SIZES)%nat → converter_ok spawn i = true) as Hok.
  { intros i Hi.
    destruct (lookup_lt_is_Some_2 SIZES i Hi) as [[size scale] Hspec].
    apply (converter_ok_true spawn i size scale Hspec). by apply Hall. }
  split.
  - destruct (verdict_from_all spawn true SIZES 0) as (Hp & Hm & _).
    { intros i spec Hi. specialize (Hok i (lookup_lt_Some _ _ _ Hi)).
      unfold converter_ok in Hok. by rewrite Hi in Hok. }
    rewrite images_of_manifest. unfold produced_specs, missing_specs.
    simpl negb in Hm. rewrite Hp, Hm. apply app_nil_r.
  - rewrite (proj1 (console_transcript spawn)). do 2 f_equal.
    rewrite <- imap_const. apply imap_ext. intros i spec Hi. simpl.
    by rewrite (Hok i (lookup_lt_Some _ _ _ Hi)).
Qed.

Lemma all_succeed_witness :
  images_of (manifest always_ok)
  = map (λ sp : SizeSpec,
           produced_entry (filename_of sp.1 sp.2) sp.1 sp.2) SIZES.
Proof.
  exact (proj1 (all_succeed always_ok (λ _ _ _ _, eq_refl))).
Defined.

(** ** The complete trace *)

Lemma loop_events_imap (spawn : nat → list string → Completed)
    (l : list SizeSpec) :
  ∀ k, loop_events spawn k l
       = mjoin (imap (λ i spec,
                        [ Run (rsvg_argv spec.1 spec.2);
                          Print (report_line (ok spawn (k + i) spec) spec) ])
                  l).
Proof.
  induction l as [|x l IH]; intros k; [done|].
  rewrite imap_cons. cbn [loop_events mjoin list_join app].
  rewrite Nat.add_0_r, IH. do 3 f_equal.
  apply imap_ext. intros i y _. simpl. by rewrite Nat.add_succ_r.
Qed.

(** X16: the complete observable behaviour of a run, for any converter.
    The script writes the SVG, announces it, creates the directory; then,
    strictly one spec after the other in the order of [SIZES], starts the
    converter and prints the report line for that spec before starting the
    next one; then writes [Contents.json] and announces it.  Nothing else
    happens. *)
Theorem complete_trace (spawn : nat → list string → Completed) :
  run_trace spawn
  = [ WriteFile "/tmp/enclave_icon.svg" SVG_CONTENT;
      Print "Created SVG at /tmp/enclave_icon.svg";
      MakeDirs ICON_DIR true ]
    ++ mjoin (imap (λ i (spec : SizeSpec),
                      [ Run (rsvg_argv spec.1 spec.2);
                        Print (if converter_ok spawn i
                               then "Generated " +:+ filename_of spec.1 spec.2
                               else "Skipped " +:+ filename_of spec.1 spec.2
                                    +:+ " - install librsvg: brew install librsvg") ]) SIZES)
    ++ [ WriteFile (ICON_DIR +:+ "/Contents.json")
           (json_dumps (manifest spawn));
         Print ("Updated " +:+ ICON_DIR +:+ "/Contents.json") ].
Proof.
  rewrite run_trace_eq, loop_events_imap.
  rewrite (imap_ext _ (λ i (spec : SizeSpec),
             [ Run (rsvg_argv spec.1 spec.2);
               Print (if converter_ok spawn i
                      then "Generated " +:+ filename_of spec.1 spec.2
                      else "Skipped " +:+ filename_of spec.1 spec.2
                           +:+ " - install librsvg: brew install librsvg") ]));
    [reflexivity|].
  intros i spec Hi. simpl. unfold converter_ok. rewrite Hi.
  destruct (ok spawn i spec); reflexivity.
Qed.
